(** * Library borrowing engine: [models.py] of JuniKatze/Library

    A shallow embedding of the entity classes of [models.py] (the
    [User] / [Teacher] / [Student] objects and the SQLite tables they
    read and write) together with the properties of the borrowing
    rules that the specification states.

    Modelling conventions.
    - A table with a primary key is a finite map from the key to the
      remaining columns ([gmap]); [teacher_class], whose composite key
      is the whole row, is a finite set of pairs.
    - SQLite [INTEGER] columns and Python integers are [Z].  The 64-bit
      range of SQLite integers is not modelled: stock counts and row
      ids stay far below it in every execution considered.
    - A [datetime.date] is its proleptic Gregorian ordinal
      ([date.toordinal()]), with the range check of date arithmetic.
    - A method that opens a connection, runs its statements and commits
      is a function from the database to an outcome and a database; a
      raised exception leaves the database as it was (nothing had been
      written before any [raise] of the methods below). *)

From stdpp Require Import gmap strings list fin_maps relations.
From stdpp Require Import sorting pretty.
From Stdlib Require Import ZArith Lia.

#[local] Set Warnings "-clear-no-such-hyp".

Local Open Scope string_scope.
Local Open Scope Z_scope.

(** ** Exceptions *)

Inductive exn : Type :=
  | LibException            (* base class, raised by [return_book] *)
  | AuthFail
  | OutOfQuota (borrowed : Z) (* the message reports the current count *)
  | HasBorrowed
  | NoBook
  | ValueError              (* raised by the [name] and [age] setters *)
  | OverflowError           (* [date + timedelta] out of range *)
  | AttributeError.         (* method missing on the object's class *)

Inductive outcome : Type :=
  | Return
  | Raise (e : exn).

Global Instance exn_eq_dec : EqDecision exn.
Proof. solve_decision. Defined.
Global Instance outcome_eq_dec : EqDecision outcome.
Proof. solve_decision. Defined.

(** ** Tables *)

Record UserRow : Type := mkUserRow {
  u_name : string;
  u_sex : string;
  u_age : Z;
  u_college : string;
  u_join_year : option Z;
  u_password : string;
  u_role : string
}.

Record BookRow : Type := mkBookRow {
  b_name : string;
  b_category : string;
  b_authors : string;
  b_publisher : string;
  b_keywords : string;
  b_remain : Z
}.

Record BorrowRow : Type := mkBorrowRow {
  br_uid : string;
  br_isbn : string;
  br_borrow_date : Z;
  br_due_date : Z;
  br_returned : Z
}.

Global Instance UserRow_eq_dec : EqDecision UserRow.
Proof. solve_decision. Defined.
Global Instance BookRow_eq_dec : EqDecision BookRow.
Proof. solve_decision. Defined.
Global Instance BorrowRow_eq_dec : EqDecision BorrowRow.
Proof. solve_decision. Defined.

(** The database file.  [db_seq] is the [sqlite_sequence] entry of the
    [AUTOINCREMENT] key of [borrow]: the largest row id handed out so
    far. *)
Record DB : Type := mkDB {
  db_user : gmap string UserRow;
  db_class : gmap string string;
  db_student : gmap string string;
  db_teacher_class : gset (string * string);
  db_book : gmap string BookRow;
  db_borrow : gmap Z BorrowRow;
  db_seq : Z
}.

Definition set_user (f : gmap string UserRow → gmap string UserRow) (db : DB) : DB :=
  mkDB (f (db_user db)) (db_class db) (db_student db) (db_teacher_class db)
       (db_book db) (db_borrow db) (db_seq db).

Definition set_teacher_class (f : gset (string * string) → gset (string * string))
    (db : DB) : DB :=
  mkDB (db_user db) (db_class db) (db_student db) (f (db_teacher_class db))
       (db_book db) (db_borrow db) (db_seq db).

Definition set_book (f : gmap string BookRow → gmap string BookRow) (db : DB) : DB :=
  mkDB (db_user db) (db_class db) (db_student db) (db_teacher_class db)
       (f (db_book db)) (db_borrow db) (db_seq db).

Definition set_borrow (f : gmap Z BorrowRow → gmap Z BorrowRow) (db : DB) : DB :=
  mkDB (db_user db) (db_class db) (db_student db) (db_teacher_class db)
       (db_book db) (f (db_borrow db)) (db_seq db).

Definition set_seq (n : Z) (db : DB) : DB :=
  mkDB (db_user db) (db_class db) (db_student db) (db_teacher_class db)
       (db_book db) (db_borrow db) n.

(** Column updates of the three [UPDATE] statements. *)
Definition with_remain (f : Z → Z) (b : BookRow) : BookRow :=
  mkBookRow (b_name b) (b_category b) (b_authors b) (b_publisher b)
            (b_keywords b) (f (b_remain b)).

Definition with_returned (v : Z) (r : BorrowRow) : BorrowRow :=
  mkBorrowRow (br_uid r) (br_isbn r) (br_borrow_date r) (br_due_date r) v.

Definition with_name (v : string) (u : UserRow) : UserRow :=
  mkUserRow v (u_sex u) (u_age u) (u_college u) (u_join_year u)
            (u_password u) (u_role u).

Definition with_age (v : Z) (u : UserRow) : UserRow :=
  mkUserRow (u_name u) (u_sex u) v (u_college u) (u_join_year u)
            (u_password u) (u_role u).

(** ** Queries on [borrow] *)

(** [WHERE uid=? AND isbn=? AND returned=0] *)
Definition open_pair (uid isbn : string) (kr : Z * BorrowRow) : Prop :=
  br_uid kr.2 = uid ∧ br_isbn kr.2 = isbn ∧ br_returned kr.2 = 0.

(** [WHERE uid=? AND returned=0] *)
Definition open_of (uid : string) (kr : Z * BorrowRow) : Prop :=
  br_uid kr.2 = uid ∧ br_returned kr.2 = 0.

(** Open loans against one title (not a query of the code; the stock
    invariant counts them). *)
Definition open_on (isbn : string) (kr : Z * BorrowRow) : Prop :=
  br_isbn kr.2 = isbn ∧ br_returned kr.2 = 0.

Global Instance open_pair_dec uid isbn kr : Decision (open_pair uid isbn kr).
Proof. unfold open_pair. apply _. Defined.
Global Instance open_of_dec uid kr : Decision (open_of uid kr).
Proof. unfold open_of. apply _. Defined.
Global Instance open_on_dec isbn kr : Decision (open_on isbn kr).
Proof. unfold open_on. apply _. Defined.

(** [SELECT 1 FROM borrow WHERE uid=? AND isbn=? AND returned=0]
    followed by [fetchone()], used for its truth value. *)
Definition has_open_loan (db : DB) (uid isbn : string) : bool :=
  bool_decide (filter (open_pair uid isbn) (db_borrow db) ≠ ∅).

(** [SELECT COUNT( * ) FROM borrow WHERE uid=? AND returned=0] *)
Definition count_open_loans (db : DB) (uid : string) : Z :=
  Z.of_nat (size (filter (open_of uid) (db_borrow db))).

Definition count_open_on (db : DB) (isbn : string) : Z :=
  Z.of_nat (size (filter (open_on isbn) (db_borrow db))).

(** Row id chosen by [INTEGER PRIMARY KEY AUTOINCREMENT]: one more than
    the largest id that was ever in the table, which SQLite finds as
    the larger of the table's current maximum and [sqlite_sequence]. *)
Definition max_rowid (m : gmap Z BorrowRow) : Z :=
  map_fold (λ k _ acc, Z.max k acc) 0 m.

Definition next_rowid (db : DB) : Z :=
  Z.max (db_seq db) (max_rowid (db_borrow db)) + 1.

(** ** Dates *)

Definition date_max_ordinal : Z := 3652059.   (* date(9999, 12, 31) *)

(** [d + datetime.timedelta(days=n)]; [None] is [OverflowError]. *)
Definition date_add (d n : Z) : option Z :=
  let r := d + n in
  if bool_decide (1 ≤ r ∧ r ≤ date_max_ordinal) then Some r else None.

(** ** The [User] objects *)

Inductive pyclass : Type := ClsUser | ClsTeacher | ClsStudent.

Global Instance pyclass_eq_dec : EqDecision pyclass.
Proof. solve_decision. Defined.

Record User : Type := mkUser {
  cls : pyclass;
  uid : string;
  _name : string;
  sex : string;
  _age : Z;
  college : string;
  _pwd_hash : string;
  role : string;
  join_year : option Z
}.

(** [User.quota] *)
Definition quota (self : User) : Z :=
  if bool_decide (role self = "TEA") then 4 else 2.

(** The quota as a function of the role tag alone. *)
Definition quota_of_role (r : string) : Z :=
  if bool_decide (r = "TEA") then 4 else 2.

(** [current_user()] of [app.py], for the uid held by the session:
    the row is read back and wrapped in [Teacher] or [User]; the
    [role] attribute is then set from the row.  [join_year] is only an
    attribute of [Teacher] objects. *)
Definition current_user (db : DB) (session_uid : string) : option User :=
  if bool_decide (session_uid = "") then None     (* [if not uid] *)
  else
    match db_user db !! session_uid with
    | None => None
    | Some row =>
        let c := if bool_decide (u_role row = "TEA") then ClsTeacher else ClsUser in
        Some (mkUser c session_uid (u_name row) (u_sex row) (u_age row)
                     (u_college row) (u_password row) (u_role row)
                     (if bool_decide (u_role row = "TEA") then u_join_year row
                      else None))
    end.

(** ** [User.borrow] *)

Definition borrow (self : User) (isbn : string) (today : Z) (db : DB)
    : outcome * DB :=
  (* 1. the book exists and has stock *)
  match db_book db !! isbn with
  | None => (Raise NoBook, db)
  | Some book =>
      if bool_decide (b_remain book ≤ 0) then (Raise NoBook, db)
      (* 2. no open loan of the same title *)
      else if has_open_loan db (uid self) isbn then (Raise HasBorrowed, db)
      else
        (* 3. quota *)
        let borrowed := count_open_loans db (uid self) in
        if bool_decide (quota self ≤ borrowed) then (Raise (OutOfQuota borrowed), db)
        else
          (* 4. insert the loan, take one copy *)
          match date_add today 90 with
          | None => (Raise OverflowError, db)
          | Some due =>
              let id := next_rowid db in
              let db1 := set_seq id (set_borrow
                           (insert id (mkBorrowRow (uid self) isbn today due 0)) db) in
              let db2 := set_book (alter (with_remain (λ n, n - 1)) isbn) db1 in
              (Return, db2)
          end
  end.

(** ** [User.return_book] *)

(** [SELECT * FROM borrow WHERE id=? AND uid=? AND returned=0] *)
Definition find_open_loan (db : DB) (borrow_id : Z) (uid : string)
    : option BorrowRow :=
  match db_borrow db !! borrow_id with
  | Some br =>
      if bool_decide (br_uid br = uid ∧ br_returned br = 0) then Some br else None
  | None => None
  end.

Definition return_book (self : User) (borrow_id : Z) (db : DB) : outcome * DB :=
  match find_open_loan db borrow_id (uid self) with
  | None => (Raise LibException, db)
  | Some br =>
      let db1 := set_borrow (alter (with_returned 1) borrow_id) db in
      let db2 := set_book (alter (with_remain (λ n, n + 1)) (br_isbn br)) db1 in
      (Return, db2)
  end.

(** ** The [name] and [age] setters *)

Definition set__name (v : string) (self : User) : User :=
  mkUser (cls self) (uid self) v (sex self) (_age self) (college self)
         (_pwd_hash self) (role self) (join_year self).

Definition set__age (v : Z) (self : User) : User :=
  mkUser (cls self) (uid self) (_name self) (sex self) v (college self)
         (_pwd_hash self) (role self) (join_year self).

(** [@name.setter]: [not value] is true of the empty string only; the
    setter does not strip its argument. *)
Definition name_setter (self : User) (value : string) (db : DB)
    : outcome * User * DB :=
  if bool_decide (value = "") then (Raise ValueError, self, db)
  else (Return, set__name value self,
        set_user (alter (with_name value) (uid self)) db).

(** [@age.setter] *)
Definition age_setter (self : User) (value : Z) (db : DB)
    : outcome * User * DB :=
  if bool_decide (value ≤ 0) then (Raise ValueError, self, db)
  else (Return, set__age value self,
        set_user (alter (with_age value) (uid self)) db).

(** ** [Teacher.add_class] and [Teacher.remove_class] *)

(** [INSERT OR IGNORE INTO teacher_class(teacher_uid, class_id)] *)
Definition add_class (self : User) (class_id : string) (db : DB) : outcome * DB :=
  (Return, set_teacher_class (λ s, {[ (uid self, class_id) ]} ∪ s) db).

(** [DELETE FROM teacher_class WHERE teacher_uid=? AND class_id=?] *)
Definition remove_class (self : User) (class_id : string) (db : DB) : outcome * DB :=
  (Return, set_teacher_class (λ s, s ∖ {[ (uid self, class_id) ]}) db).

(** ** [init_db] *)

(** [generate_password_hash] is salted and lives in werkzeug; it is a
    parameter here.  [DELETE FROM borrow] empties the table but keeps
    its [sqlite_sequence] entry, hence [prev_seq]. *)
Definition init_db (generate_password_hash : string → string) (prev_seq : Z) : DB :=
  let h := generate_password_hash in
  mkDB
    (list_to_map
       [ ("T001", mkUserRow "张老师" "女" 40 "数学学院" (Some 2010) (h "123456") "TEA");
         ("T002", mkUserRow "李老师" "男" 38 "数学学院" (Some 2015) (h "123456") "TEA");
         ("S001", mkUserRow "Alice" "女" 19 "数学学院" None (h "111") "STU");
         ("S002", mkUserRow "Bob" "男" 20 "数学学院" None (h "111") "STU");
         ("S003", mkUserRow "Carol" "女" 19 "数学学院" None (h "111") "STU");
         ("S004", mkUserRow "Dave" "男" 21 "数学学院" None (h "111") "STU");
         ("S005", mkUserRow "Eve" "女" 20 "数学学院" None (h "111") "STU") ])
    (list_to_map [ ("C001", "2023级数学1班"); ("C002", "2023级数学2班") ])
    (list_to_map [ ("S001", "C001"); ("S002", "C001"); ("S003", "C002");
                   ("S004", "C002"); ("S005", "C001") ])
    (list_to_set [ ("T001", "C001"); ("T001", "C002") ])
    (list_to_map
       [ ("9787111234567", mkBookRow "Python 编程" "CS" "Guido, 某人" "机械工业" "Python 入门" 5);
         ("9787042345678", mkBookRow "数学分析新讲" "MATH" "张三" "高等教育" "数学 分析" 3);
         ("9787301123456", mkBookRow "普通物理" "PHY" "李四" "清华大学" "物理 基础" 4);
         ("9787021456789", mkBookRow "围城" "LIT" "钱钟书" "人民文学" "小说 近代" 6);
         ("9787031234567", mkBookRow "线性代数" "MATH" "李永乐" "科学" "线代 考研" 4);
         ("9787112345678", mkBookRow "C++ Primer" "CS" "Lippman" "机械工业" "C++ 入门" 5);
         ("9787043456789", mkBookRow "大学物理" "PHY" "赵凯华" "高等教育" "物理 通识" 3);
         ("9787022567890", mkBookRow "红楼梦" "LIT" "曹雪芹" "人民文学" "古典 四大" 6);
         ("9787302123456", mkBookRow "算法导论" "CS" "CLRS" "清华大学" "算法 经典" 2);
         ("9787011345678", mkBookRow "近代史" "LIT" "蒋廷黻" "人民" "历史 近代" 4) ])
    ∅
    prev_seq.

(** ** Sequential executions *)

(** One method call made by a request handler on the object that
    [current_user] returned. *)
Inductive call : Type :=
  | CallBorrow (isbn : string) (today : Z)
  | CallReturnBook (borrow_id : Z)
  | CallSetName (value : string)
  | CallSetAge (value : Z)
  | CallAddClass (class_id : string)
  | CallRemoveClass (class_id : string)
  | CallQuery.                (* any of the read-only queries *)

Definition perform (self : User) (c : call) (db : DB) : outcome * DB :=
  match c with
  | CallBorrow isbn today => borrow self isbn today db
  | CallReturnBook borrow_id => return_book self borrow_id db
  | CallSetName v => let r := name_setter self v db in (r.1.1, r.2)
  | CallSetAge v => let r := age_setter self v db in (r.1.1, r.2)
  | CallAddClass c =>
      if bool_decide (cls self = ClsTeacher) then add_class self c db
      else (Raise AttributeError, db)
  | CallRemoveClass c =>
      if bool_decide (cls self = ClsTeacher) then remove_class self c db
      else (Raise AttributeError, db)
  | CallQuery => (Return, db)
  end.

Inductive step : DB → DB → Prop :=
  | step_call session_uid self c db :
      current_user db session_uid = Some self →
      step db (perform self c db).2.

(** States reached from [d0] by any number of calls, one after the
    other. *)
Definition reachable (d0 db : DB) : Prop := rtc step d0 db.

(** A starting state: nothing is on loan and no stock count is
    negative, as after [init_db]. *)
Definition initial (d0 : DB) : Prop :=
  db_borrow d0 = ∅ ∧ map_Forall (λ _ b, 0 ≤ b_remain b) (db_book d0).

(** A scripted execution, for concrete runs. *)
Fixpoint run_calls (cs : list (string * call)) (db : DB) : DB :=
  match cs with
  | [] => db
  | (session_uid, c) :: cs' =>
      match current_user db session_uid with
      | Some self => run_calls cs' (perform self c db).2
      | None => run_calls cs' db
      end
  end.

(** ** Interleaved executions of [borrow]

    Each request handler opens its own connection.  With the default
    transaction handling of [sqlite3], the three [SELECT]s of [borrow]
    run outside any transaction; the [INSERT] opens one, which holds
    the database's write lock until [commit].  A handler is therefore
    a small machine whose steps are the statements of [borrow], and
    the steps of different handlers may alternate. *)

Inductive pc : Type :=
  | AtSelectBook                 (* SELECT the book row           *)
  | AtSelectDup                  (* SELECT 1 ... returned=0       *)
  | AtSelectCount                (* SELECT COUNT ...              *)
  | AtInsert                     (* dates, INSERT INTO borrow     *)
  | AtUpdate (txn : DB)          (* UPDATE book SET remain        *)
  | AtCommit (txn : DB)          (* db.commit()                   *)
  | Finished (o : outcome).

Record handler : Type := mkHandler {
  h_self : User;
  h_isbn : string;
  h_today : Z;
  h_pc : pc
}.

Definition at_pc (h : handler) (p : pc) : handler :=
  mkHandler (h_self h) (h_isbn h) (h_today h) p.

(** The committed database and whether some connection holds the
    write lock. *)
Record world : Type := mkWorld {
  w_db : DB;
  w_locked : bool
}.

(** One statement of one handler; [None] when the handler has
    finished or waits for the write lock. *)
Definition handler_step (w : world) (h : handler) : option (world * handler) :=
  let db := w_db w in
  match h_pc h with
  | AtSelectBook =>
      match db_book db !! h_isbn h with
      | None => Some (w, at_pc h (Finished (Raise NoBook)))
      | Some book =>
          if bool_decide (b_remain book ≤ 0)
          then Some (w, at_pc h (Finished (Raise NoBook)))
          else Some (w, at_pc h AtSelectDup)
      end
  | AtSelectDup =>
      if has_open_loan db (uid (h_self h)) (h_isbn h)
      then Some (w, at_pc h (Finished (Raise HasBorrowed)))
      else Some (w, at_pc h AtSelectCount)
  | AtSelectCount =>
      let borrowed := count_open_loans db (uid (h_self h)) in
      if bool_decide (quota (h_self h) ≤ borrowed)
      then Some (w, at_pc h (Finished (Raise (OutOfQuota borrowed))))
      else Some (w, at_pc h AtInsert)
  | AtInsert =>
      match date_add (h_today h) 90 with
      | None => Some (w, at_pc h (Finished (Raise OverflowError)))
      | Some due =>
          if w_locked w then None
          else
            let id := next_rowid db in
            let txn := set_seq id (set_borrow
                         (insert id (mkBorrowRow (uid (h_self h)) (h_isbn h)
                                                 (h_today h) due 0)) db) in
            Some (mkWorld db true, at_pc h (AtUpdate txn))
      end
  | AtUpdate txn =>
      Some (w, at_pc h (AtCommit
                 (set_book (alter (with_remain (λ n, n - 1)) (h_isbn h)) txn)))
  | AtCommit txn => Some (mkWorld txn false, at_pc h (Finished Return))
  | Finished _ => None
  end.

(** A schedule names, step by step, the handler that runs next. *)
Fixpoint run_schedule (sched : list nat) (w : world) (hs : list handler)
    : world * list handler :=
  match sched with
  | [] => (w, hs)
  | i :: sched' =>
      match hs !! i with
      | Some h =>
          match handler_step w h with
          | Some (w', h') => run_schedule sched' w' (<[i := h']> hs)
          | None => run_schedule sched' w hs
          end
      | None => run_schedule sched' w hs
      end
  end.

Definition start_borrow (self : User) (isbn : string) (today : Z) : handler :=
  mkHandler self isbn today AtSelectBook.

(** ** Properties named in the statements below *)

(** The book is absent or has no copy left. *)
Definition no_stock (db : DB) (isbn : string) : Prop :=
  db_book db !! isbn = None ∨
  ∃ b, db_book db !! isbn = Some b ∧ b_remain b ≤ 0.

(** The borrower holds an open loan of the title. *)
Definition holds_open (db : DB) (uid isbn : string) : Prop :=
  ∃ id r, db_borrow db !! id = Some r ∧
          br_uid r = uid ∧ br_isbn r = isbn ∧ br_returned r = 0.

(** At most one open loan per borrower and title. *)
Definition one_open_per_pair (db : DB) : Prop :=
  ∀ i j ri rj,
    db_borrow db !! i = Some ri → db_borrow db !! j = Some rj →
    br_returned ri = 0 → br_returned rj = 0 →
    br_uid ri = br_uid rj → br_isbn ri = br_isbn rj → i = j.

(** The database after a successful [borrow], and after a successful
    [return_book] of the loan [br]. *)
Definition after_borrow (self : User) (isbn : string) (today due : Z) (db : DB) : DB :=
  set_book (alter (with_remain (λ n, n - 1)) isbn)
    (set_seq (next_rowid db)
       (set_borrow (insert (next_rowid db)
                      (mkBorrowRow (uid self) isbn today due 0)) db)).

Definition after_return (borrow_id : Z) (br : BorrowRow) (db : DB) : DB :=
  set_book (alter (with_remain (λ n, n + 1)) (br_isbn br))
    (set_borrow (alter (with_returned 1) borrow_id) db).

(** Two rows that differ at most in the one column an [UPDATE] sets. *)
Definition same_but_remain (b b' : BookRow) : Prop :=
  b_name b' = b_name b ∧ b_category b' = b_category b ∧
  b_authors b' = b_authors b ∧ b_publisher b' = b_publisher b ∧
  b_keywords b' = b_keywords b.

Definition same_but_returned (r r' : BorrowRow) : Prop :=
  br_uid r' = br_uid r ∧ br_isbn r' = br_isbn r ∧
  br_borrow_date r' = br_borrow_date r ∧ br_due_date r' = br_due_date r.

(** The tables that neither [borrow] nor [return_book] writes. *)
Definition same_people_and_classes (db db' : DB) : Prop :=
  db_user db' = db_user db ∧ db_class db' = db_class db ∧
  db_student db' = db_student db ∧
  db_teacher_class db' = db_teacher_class db.

(** Everything the sequential executions maintain. *)
Record Inv (d0 db : DB) : Prop := mkInv {
  inv_stock : ∀ isbn,
    match db_book db !! isbn, db_book d0 !! isbn with
    | Some b, Some b0 =>
        0 ≤ b_remain b ∧ b_remain b = b_remain b0 - count_open_on db isbn
    | None, None => True
    | _, _ => False
    end;
  inv_ref : ∀ id r,
    db_borrow db !! id = Some r → is_Some (db_book db !! br_isbn r);
  inv_unique : one_open_per_pair db;
  inv_quota : ∀ u row,
    db_user db !! u = Some row →
    count_open_loans db u ≤ quota_of_role (u_role row)
}.

(** ** The name half of the [/user/update] route

    [app.py] strips the form field and calls the setter only when
    something is left.  [strip] is Python's [str.strip]. *)
Section user_update.
Variable strip : string → string.

Definition user_update_name (self : User) (form_name : string) (db : DB)
    : option outcome * User * DB :=
  let new_name := strip form_name in
  if bool_decide (new_name = "") then (None, self, db)
  else let r := name_setter self new_name db in (Some r.1.1, r.1.2, r.2).
End user_update.

(** ** Sample data *)

Module Sample.
Definition hash (pwd : string) : string := "pbkdf2:sha256$" +:+ pwd.

Definition db0 : DB := init_db hash 0.

Definition day : Z := 739252.            (* date(2025, 1, 1) *)

Definition python_book : string := "9787111234567".
Definition analysis_book : string := "9787042345678".
Definition algorithms_book : string := "9787302123456".   (* two copies *)

Definition alice : User :=
  mkUser ClsUser "S001" "Alice" "女" 19 "数学学院" (hash "111") "STU" None.
Definition bob : User :=
  mkUser ClsUser "S002" "Bob" "男" 20 "数学学院" (hash "111") "STU" None.
Definition zhang : User :=
  mkUser ClsTeacher "T001" "张老师" "女" 40 "数学学院" (hash "123456") "TEA"
         (Some 2010).

(** Alice has borrowed two titles: her quota is used up. *)
Definition alice_two_loans : DB :=
  run_calls [ ("S001", CallBorrow python_book day);
              ("S001", CallBorrow analysis_book day) ] db0.

(** Alice and Bob hold the two copies of one title. *)
Definition both_copies_out : DB :=
  run_calls [ ("S001", CallBorrow algorithms_book day);
              ("S002", CallBorrow algorithms_book day) ] db0.

(** Carol holds one of the two copies: one is left. *)
Definition one_copy_left : DB :=
  run_calls [ ("S003", CallBorrow algorithms_book day) ] db0.
End Sample.

(** * The rest of [models.py] and the routes of [app.py] *)

(** ** [User.login]

    [check_password_hash] belongs to werkzeug and is a parameter.  The
    row is wrapped in [Teacher] or [Student]; both constructors set
    [role] themselves, after [User.__init__] took it from the row. *)
Section login.
Variable check_password_hash : string → string → bool.

Definition login (uid pwd : string) (db : DB) : exn + User :=
  match db_user db !! uid with
  | None => inl AuthFail
  | Some row =>
      if negb (check_password_hash (u_password row) pwd) then inl AuthFail
      else if bool_decide (u_role row = "TEA")
      then inr (mkUser ClsTeacher uid (u_name row) (u_sex row) (u_age row)
                       (u_college row) (u_password row) "TEA" (u_join_year row))
      else inr (mkUser ClsStudent uid (u_name row) (u_sex row) (u_age row)
                       (u_college row) (u_password row) "STU" None)
  end.
End login.

(** ** [User.current_borrow]

    The open loans of one borrower, each joined with its book, ordered
    by due date.  A loan whose book row is missing drops out of the
    inner join.  SQL leaves the order of equal due dates open; the
    model takes the order its sort produces.  Dates are stored as ISO
    text, whose order is that of the ordinals. *)
Record BorrowedBook : Type := mkBorrowedBook {
  bb_id : Z;                   (* b.id and the other columns of b *)
  bb_loan : BorrowRow;
  bb_name : string;            (* bo.name, bo.authors, ...        *)
  bb_authors : string;
  bb_publisher : string;
  bb_keywords : string
}.

Definition join_book (db : DB) (kr : Z * BorrowRow) : option BorrowedBook :=
  match db_book db !! br_isbn kr.2 with
  | Some bo => Some (mkBorrowedBook kr.1 kr.2 (b_name bo) (b_authors bo)
                                    (b_publisher bo) (b_keywords bo))
  | None => None
  end.

Definition by_due_date (x y : BorrowedBook) : Prop :=
  br_due_date (bb_loan x) ≤ br_due_date (bb_loan y).

Global Instance by_due_date_dec : RelDecision by_due_date.
Proof. intros x y. unfold by_due_date. apply _. Defined.

Definition open_loans_by_due (db : DB) (uid : string) : list BorrowedBook :=
  merge_sort by_due_date
    (omap (join_book db) (map_to_list (filter (open_of uid) (db_borrow db)))).

Definition current_borrow (self : User) (db : DB) : list BorrowedBook :=
  open_loans_by_due db (uid self).

(** ** The queries of the routes *)

(** [SELECT * FROM book WHERE remain>0], and the same within one
    category.  No order is asked for. *)
Definition in_stock (kb : string * BookRow) : Prop := 0 < b_remain kb.2.

Definition in_stock_in (cat : string) (kb : string * BookRow) : Prop :=
  b_category kb.2 = cat ∧ 0 < b_remain kb.2.

Global Instance in_stock_dec kb : Decision (in_stock kb).
Proof. unfold in_stock. apply _. Defined.
Global Instance in_stock_in_dec cat kb : Decision (in_stock_in cat kb).
Proof. unfold in_stock_in. apply _. Defined.

Definition books_in_stock (db : DB) : list (string * BookRow) :=
  map_to_list (filter in_stock (db_book db)).

Definition books_in_stock_in (db : DB) (cat : string) : list (string * BookRow) :=
  map_to_list (filter (in_stock_in cat) (db_book db)).

(** [SELECT DISTINCT category FROM book] *)
Definition categories (db : DB) : list string :=
  remove_dups ((λ kb : string * BookRow, b_category kb.2)
                 <$> map_to_list (db_book db)).

(** [SELECT c.id FROM class c JOIN teacher_class tc ON c.id=tc.class_id
    WHERE tc.teacher_uid=?], and [SELECT id FROM class]. *)
Definition all_class_ids (db : DB) : list string := (map_to_list (db_class db)).*1.

Definition related_class_ids (db : DB) (teacher_uid : string) : list string :=
  filter (λ c, (teacher_uid, c) ∈ db_teacher_class db) (all_class_ids db).

(** The same join with the class name, [ORDER BY c.id]. *)
Definition by_first (x y : string * string) : Prop := String.le x.1 y.1.

Global Instance by_first_dec : RelDecision by_first.
Proof. intros x y. unfold by_first. apply _. Defined.

Definition related_classes (db : DB) (teacher_uid : string) : list (string * string) :=
  merge_sort by_first
    (filter (λ c : string * string, (teacher_uid, c.1) ∈ db_teacher_class db)
            (map_to_list (db_class db))).

(** [SELECT 1 FROM teacher_class WHERE teacher_uid=? AND class_id=?] *)
Definition is_related (db : DB) (teacher_uid class_id : string) : bool :=
  bool_decide ((teacher_uid, class_id) ∈ db_teacher_class db).

(** [SELECT 1 FROM student WHERE uid=? AND class_id=?] *)
Definition is_in_class (db : DB) (student_uid class_id : string) : bool :=
  bool_decide (db_student db !! student_uid = Some class_id).

(** [SELECT u.uid, u.name, u.sex, u.age FROM user u JOIN student s
    ON u.uid=s.uid WHERE s.class_id=? AND u.role='STU' ORDER BY u.uid] *)
Record StudentInfo : Type := mkStudentInfo {
  si_uid : string;
  si_name : string;
  si_sex : string;
  si_age : Z
}.

Definition join_user (db : DB) (class_id : string) (sc : string * string)
    : option StudentInfo :=
  if bool_decide (sc.2 = class_id) then
    match db_user db !! sc.1 with
    | Some u =>
        if bool_decide (u_role u = "STU")
        then Some (mkStudentInfo sc.1 (u_name u) (u_sex u) (u_age u))
        else None
    | None => None
    end
  else None.

Definition by_uid (x y : StudentInfo) : Prop := String.le (si_uid x) (si_uid y).

Global Instance by_uid_dec : RelDecision by_uid.
Proof. intros x y. unfold by_uid. apply _. Defined.

Definition students_of_class (db : DB) (class_id : string) : list StudentInfo :=
  merge_sort by_uid (omap (join_user db class_id) (map_to_list (db_student db))).

(** The columns that [teacher_student_borrow] selects from the join of
    [current_borrow]. *)
Record StudentLoan : Type := mkStudentLoan {
  sl_id : Z;
  sl_borrow_date : Z;
  sl_due_date : Z;
  sl_isbn : string;
  sl_book_name : string;
  sl_authors : string;
  sl_publisher : string;
  sl_keywords : string
}.

Definition student_loan (b : BorrowedBook) : StudentLoan :=
  mkStudentLoan (bb_id b) (br_borrow_date (bb_loan b)) (br_due_date (bb_loan b))
                (br_isbn (bb_loan b)) (bb_name b) (bb_authors b)
                (bb_publisher b) (bb_keywords b).

(** ** Sessions and replies *)

(** The two keys of the Flask session that the code uses. *)
Record session : Type := mkSession {
  s_uid : option string;
  s_role : option string
}.

Definition session_clear : session := mkSession None None.

(** What a view function hands back: a redirect, a rendered page with
    its template arguments, or an exception that nothing caught. *)
Inductive resp (A : Type) : Type :=
  | Redirect (url : string)
  | Render (args : A)
  | Uncaught (e : exn).
Arguments Redirect {A} url.
Arguments Render {A} args.
Arguments Uncaught {A} e.

Record reply (A : Type) : Type := mkReply {
  rp_flash : list string;
  rp_resp : resp A;
  rp_session : session;
  rp_db : DB
}.
Arguments mkReply {A} _ _ _ _.
Arguments rp_flash {A} _.
Arguments rp_resp {A} _.
Arguments rp_session {A} _.
Arguments rp_db {A} _.

(** [str(e)] for the exceptions of [models.py] that carry a message. *)
Definition message (e : exn) : string :=
  match e with
  | NoBook => "书籍不存在或库存不足"
  | HasBorrowed => "已借过此书且未归还"
  | OutOfQuota borrowed =>
      "额度已满（教师 4 本/学生 2 本），当前已借 " +:+ pretty borrowed +:+ " 本"
  | LibException => "记录不存在或已归还"
  | _ => ""
  end.

(** [isinstance(e, LibException)] *)
Definition is_LibException (e : exn) : bool :=
  match e with
  | LibException | AuthFail | OutOfQuota _ | HasBorrowed | NoBook => true
  | _ => false
  end.

(** [current_user()] with its effect on the session: an unknown uid
    clears the session, a missing or empty one does not. *)
Definition session_user (db : DB) (s : session) : option User * session :=
  match s_uid s with
  | None => (None, s)
  | Some u =>
      match current_user db u with
      | Some user => (Some user, s)
      | None => (None, if bool_decide (u = "") then s else session_clear)
      end
  end.

(** ** The view functions of [app.py] *)

Module App.
Section routes.
Variable check_password_hash : string → string → bool.
(** [str.strip], and [int] on a string ([None] for [ValueError]). *)
Variable strip : string → string.
Variable int : string → option Z.

(** [POST /] *)
Definition login (form_uid form_pwd : string) (s : session) (db : DB) : reply unit :=
  match login check_password_hash form_uid form_pwd db with
  | inr user =>
      mkReply [] (Redirect "/index")
              (mkSession (Some (uid user)) (Some (role user))) db
  | inl _ => mkReply ["账号或密码错误"] (Render ()) s db
  end.

Definition logout (s : session) (db : DB) : reply unit :=
  mkReply [] (Redirect "/") session_clear db.

(** [POST /user/update] *)
Definition user_update (form_name form_age : string) (s : session) (db : DB)
    : reply unit :=
  match session_user db s with
  | (None, s') => mkReply [] (Redirect "/") s' db
  | (Some user, s') =>
      let new_name := strip form_name in
      let new_age := strip form_age in
      let '(fl1, user1, db1) :=
        if bool_decide (new_name = "") then ([], user, db)
        else match name_setter user new_name db with
             | (Return, u, d) => (["姓名已更新"], u, d)
             | (Raise _, u, d) => (["姓名不能为空"], u, d)
             end in
      let '(fl2, db2) :=
        if bool_decide (new_age = "") then ([], db1)
        else match int new_age with
             | None => (["年龄必须是正整数"], db1)
             | Some n =>
                 match age_setter user1 n db1 with
                 | (Return, _, d) => (["年龄已更新"], d)
                 | (Raise _, _, d) => (["年龄必须是正整数"], d)
                 end
             end in
      mkReply (fl1 ++ fl2) (Redirect "/user/info") s' db2
  end.

(** [GET /book/query] and [GET /book/category/<cat>] *)
Definition book_query (s : session) (db : DB)
    : reply (list string * list (string * BookRow)) :=
  match session_user db s with
  | (None, s') => mkReply [] (Redirect "/") s' db
  | (Some _, s') => mkReply [] (Render (categories db, books_in_stock db)) s' db
  end.

Definition book_by_cat (cat : string) (s : session) (db : DB)
    : reply (list (string * BookRow)) :=
  match session_user db s with
  | (None, s') => mkReply [] (Redirect "/") s' db
  | (Some _, s') => mkReply [] (Render (books_in_stock_in db cat)) s' db
  end.

(** [POST /borrow]; [today] is the clock. *)
Definition borrow (form_isbn : string) (today : Z) (s : session) (db : DB)
    : reply unit :=
  match session_user db s with
  | (None, s') => mkReply [] (Redirect "/") s' db
  | (Some user, s') =>
      match borrow user form_isbn today db with
      | (Return, d) => mkReply ["借阅成功"] (Redirect "/book/query") s' d
      | (Raise e, d) =>
          if is_LibException e
          then mkReply [message e] (Redirect "/book/query") s' d
          else mkReply [] (Uncaught e) s' d
      end
  end.

(** [GET /my/borrow] *)
Definition my_borrow (s : session) (db : DB) : reply (list BorrowedBook) :=
  match session_user db s with
  | (None, s') => mkReply [] (Redirect "/") s' db
  | (Some user, s') => mkReply [] (Render (current_borrow user db)) s' db
  end.

(** [GET /return/<int:borrow_id>] *)
Definition return_book (borrow_id : Z) (s : session) (db : DB) : reply unit :=
  match session_user db s with
  | (None, s') => mkReply [] (Redirect "/") s' db
  | (Some user, s') =>
      match return_book user borrow_id db with
      | (Return, d) => mkReply ["归还成功"] (Redirect "/my/borrow") s' d
      | (Raise e, d) =>
          if is_LibException e
          then mkReply [message e] (Redirect "/my/borrow") s' d
          else mkReply [] (Uncaught e) s' d
      end
  end.

(** [GET /class] *)
Definition list_class (s : session) (db : DB)
    : reply (list string * list string) :=
  if bool_decide (s_role s ≠ Some "TEA")
  then mkReply ["仅限教师"] (Redirect "/index") s db
  else
    match session_user db s with
    | (None, s') => mkReply [] (Redirect "/") s' db
    | (Some t, s') =>
        let related := related_class_ids db (uid t) in
        let unused := filter (λ c, c ∉ related) (all_class_ids db) in
        mkReply [] (Render (related, unused)) s' db
    end.

(** [POST /class/add] and [POST /class/remove].  Only [Teacher] has the
    two methods. *)
Definition class_add (form_class_id : string) (s : session) (db : DB) : reply unit :=
  if bool_decide (s_role s ≠ Some "TEA")
  then mkReply [] (Redirect "/index") s db
  else
    match session_user db s with
    | (None, s') => mkReply [] (Redirect "/") s' db
    | (Some t, s') =>
        let class_id := strip form_class_id in
        if bool_decide (class_id = "") then mkReply [] (Redirect "/class") s' db
        else if bool_decide (cls t = ClsTeacher)
        then mkReply ["已关联班级 " +:+ class_id] (Redirect "/class") s'
                     (add_class t class_id db).2
        else mkReply [] (Uncaught AttributeError) s' db
    end.

Definition class_remove (form_class_id : string) (s : session) (db : DB) : reply unit :=
  if bool_decide (s_role s ≠ Some "TEA")
  then mkReply [] (Redirect "/index") s db
  else
    match session_user db s with
    | (None, s') => mkReply [] (Redirect "/") s' db
    | (Some t, s') =>
        let class_id := strip form_class_id in
        if bool_decide (class_id = "") then mkReply [] (Redirect "/class") s' db
        else if bool_decide (cls t = ClsTeacher)
        then mkReply ["已取消关联 " +:+ class_id] (Redirect "/class") s'
                     (remove_class t class_id db).2
        else mkReply [] (Uncaught AttributeError) s' db
    end.

(** [GET /teacher/class_borrow] *)
Definition teacher_class_borrow (s : session) (db : DB)
    : reply (list (string * string)) :=
  if bool_decide (s_role s ≠ Some "TEA")
  then mkReply ["仅限教师"] (Redirect "/index") s db
  else
    match session_user db s with
    | (None, s') => mkReply [] (Redirect "/") s' db
    | (Some t, s') => mkReply [] (Render (related_classes db (uid t))) s' db
    end.

(** [GET /teacher/class_borrow/<class_id>] *)
Definition teacher_class_students (class_id : string) (s : session) (db : DB)
    : reply (option string * list StudentInfo) :=
  if bool_decide (s_role s ≠ Some "TEA")
  then mkReply ["仅限教师"] (Redirect "/index") s db
  else
    match session_user db s with
    | (None, s') => mkReply [] (Redirect "/") s' db
    | (Some t, s') =>
        if negb (is_related db (uid t) class_id)
        then mkReply ["无权查看该班级"] (Redirect "/teacher/class_borrow") s' db
        else mkReply [] (Render (db_class db !! class_id,
                                 students_of_class db class_id)) s' db
    end.

(** [GET /teacher/student_borrow/<class_id>/<student_uid>] *)
Definition teacher_student_borrow (class_id student_uid : string)
    (s : session) (db : DB)
    : reply (option string * option string * list StudentLoan) :=
  if bool_decide (s_role s ≠ Some "TEA")
  then mkReply ["仅限教师"] (Redirect "/index") s db
  else
    match session_user db s with
    | (None, s') => mkReply [] (Redirect "/") s' db
    | (Some t, s') =>
        if negb (is_related db (uid t) class_id)
        then mkReply ["无权查看该班级"] (Redirect "/teacher/class_borrow") s' db
        else if negb (is_in_class db student_uid class_id)
        then mkReply ["学生不在该班级"]
                     (Redirect ("/teacher/class_borrow/" +:+ class_id)) s' db
        else mkReply [] (Render (db_class db !! class_id,
                                 u_name <$> db_user db !! student_uid,
                                 student_loan <$> open_loans_by_due db student_uid))
                     s' db
    end.
End routes.
End App.

(** ** Sequences of requests *)

Inductive request : Type :=
  | ReqLogin (form_uid form_pwd : string)
  | ReqLogout
  | ReqUserUpdate (form_name form_age : string)
  | ReqBookQuery
  | ReqBookByCat (cat : string)
  | ReqBorrow (form_isbn : string) (today : Z)
  | ReqMyBorrow
  | ReqReturnBook (borrow_id : Z)
  | ReqListClass
  | ReqClassAdd (form_class_id : string)
  | ReqClassRemove (form_class_id : string)
  | ReqTeacherClassBorrow
  | ReqTeacherClassStudents (class_id : string)
  | ReqTeacherStudentBorrow (class_id student_uid : string).

Section serve.
Variable check_password_hash : string → string → bool.
Variable strip : string → string.
Variable int : string → option Z.

(** The session and the database that a request leaves behind. *)
Definition handle (r : request) (s : session) (db : DB) : session * DB :=
  let out {A} (rp : reply A) := (rp_session rp, rp_db rp) in
  match r with
  | ReqLogin u p => out (App.login check_password_hash u p s db)
  | ReqLogout => out (App.logout s db)
  | ReqUserUpdate n a => out (App.user_update strip int n a s db)
  | ReqBookQuery => out (App.book_query s db)
  | ReqBookByCat c => out (App.book_by_cat c s db)
  | ReqBorrow i t => out (App.borrow i t s db)
  | ReqMyBorrow => out (App.my_borrow s db)
  | ReqReturnBook i => out (App.return_book i s db)
  | ReqListClass => out (App.list_class s db)
  | ReqClassAdd c => out (App.class_add strip c s db)
  | ReqClassRemove c => out (App.class_remove strip c s db)
  | ReqTeacherClassBorrow => out (App.teacher_class_borrow s db)
  | ReqTeacherClassStudents c => out (App.teacher_class_students c s db)
  | ReqTeacherStudentBorrow c u => out (App.teacher_student_borrow c u s db)
  end.

End serve.

(** A stand-in for werkzeug's check, matching [Sample.hash]. *)
Module Demo.
Definition check_password_hash (pwhash pwd : string) : bool :=
  bool_decide (pwhash = Sample.hash pwd).

Definition zhang_session : session := mkSession (Some "T001") (Some "TEA").
Definition li_session : session := mkSession (Some "T002") (Some "TEA").
End Demo.

(** A call made on the object of the person whose id is [t], and the
    databases that the person of a session can produce by such
    calls. *)
Inductive step_by (t : string) : DB → DB → Prop :=
  | step_by_call self c db :
      current_user db t = Some self →
      step_by t db (perform self c db).2.

Definition calls_by (s : session) (db db' : DB) : Prop :=
  match s_uid s with
  | Some t => rtc (step_by t) db db'
  | None => db' = db
  end.

(** What belongs to people other than [t] is the same in [db] and
    [db']. *)
Definition others_untouched (t : string) (db db' : DB) : Prop :=
  (∀ u, u ≠ t → db_user db' !! u = db_user db !! u) ∧
  (∀ id row, br_uid row ≠ t →
     db_borrow db' !! id = Some row ↔ db_borrow db !! id = Some row) ∧
  (∀ p : string * string, p.1 ≠ t →
     p ∈ db_teacher_class db' ↔ p ∈ db_teacher_class db) ∧
  db_class db' = db_class db ∧ db_student db' = db_student db.

(** ** Properties named in the statements of the second part *)

(** The session is a teacher's, of an existing person associated with
    the class. *)
Definition may_see_class (db : DB) (s : session) (class_id : string) : Prop :=
  s_role s = Some "TEA" ∧
  ∃ t, s_uid s = Some t ∧ is_Some (current_user db t) ∧
       (t, class_id) ∈ db_teacher_class db.


(** A loan row as a later state may show it: the same loan, with
    [returned] as it was or gone from 0 to 1. *)
Definition loan_kept (r r' : BorrowRow) : Prop :=
  same_but_returned r r' ∧
  (br_returned r' = br_returned r ∨ (br_returned r = 0 ∧ br_returned r' = 1)).

(** A loan row as [borrow] writes it and [return_book] may leave it. *)
Definition loan_ok (db : DB) (id : Z) (r : BorrowRow) : Prop :=
  br_due_date r = br_borrow_date r + 90 ∧
  1 ≤ br_due_date r ≤ date_max_ordinal ∧
  (br_returned r = 0 ∨ br_returned r = 1) ∧
  0 < id ≤ db_seq db ∧
  is_Some (db_user db !! br_uid r) ∧
  is_Some (db_book db !! br_isbn r).

(** Two person rows that differ at most in name and age. *)
Definition same_but_name_age (u u' : UserRow) : Prop :=
  u_sex u' = u_sex u ∧ u_college u' = u_college u ∧
  u_join_year u' = u_join_year u ∧ u_password u' = u_password u ∧
  u_role u' = u_role u.

Definition profile_valid (db : DB) : Prop :=
  ∀ u row, db_user db !! u = Some row → u_name row ≠ "" ∧ 0 < u_age row.

(** * Proofs *)

(** ** Counting rows of a filtered table *)

Section filter_size.
Context {K : Type} `{Countable K} {A : Type}.
Context (P : K * A → Prop) `{!∀ x, Decision (P x)}.
Implicit Types m : gmap K A.

Lemma size_filter_insert_fresh m i x :
  m !! i = None →
  size (filter P (<[i:=x]> m))
  = if decide (P (i, x)) then S (size (filter P m)) else size (filter P m).
Proof.
  intros Hi. rewrite map_filter_insert. case_decide.
  - apply map_size_insert_None. apply map_lookup_filter_None. by left.
  - by rewrite delete_id.
Qed.

Lemma alter_as_insert (f : A → A) m i y :
  m !! i = Some y → alter f i m = <[i := f y]> m.
Proof.
  intros Hi. apply map_eq. intros j. rewrite lookup_alter, lookup_insert.
  case_decide; subst; by rewrite ?Hi.
Qed.

Lemma size_filter_alter_drop (f : A → A) m i y :
  m !! i = Some y → P (i, y) → ¬ P (i, f y) →
  S (size (filter P (alter f i m))) = size (filter P m).
Proof.
  intros Hi Hy Hfy. rewrite (alter_as_insert f m i y Hi).
  rewrite map_filter_insert_False, map_filter_delete by done.
  assert (filter P m !! i = Some y) as Hin
    by (by apply map_lookup_filter_Some).
  rewrite map_size_delete, Hin. simpl.
  assert (size (filter P m) ≠ 0%nat); [|lia].
  intros Hz. apply map_size_empty_iff in Hz. by rewrite Hz in Hin.
Qed.

Lemma filter_alter_same (f : A → A) m i y :
  m !! i = Some y → ¬ P (i, y) → ¬ P (i, f y) →
  filter P (alter f i m) = filter P m.
Proof.
  intros Hi Hy Hfy. rewrite (alter_as_insert f m i y Hi).
  apply map_filter_insert_not'; [done|]. intros z Hz. by simplify_eq.
Qed.

Lemma filter_nonempty_iff m :
  filter P m ≠ ∅ ↔ ∃ i x, m !! i = Some x ∧ P (i, x).
Proof.
  split.
  - intros Hne. destruct (map_choose _ Hne) as (i & x & Hix).
    apply map_lookup_filter_Some in Hix. eauto.
  - intros (i & x & Hi & HP) Hemp.
    assert (filter P m !! i = Some x) as Hin
      by (by apply map_lookup_filter_Some).
    by rewrite Hemp in Hin.
Qed.
End filter_size.

(** ** Row ids *)

Lemma max_rowid_ge (m : gmap Z BorrowRow) k r :
  m !! k = Some r → k ≤ max_rowid m.
Proof.
  unfold max_rowid. revert k r.
  apply (map_fold_weak_ind
           (λ acc (m : gmap Z BorrowRow), ∀ k r, m !! k = Some r → k ≤ acc)).
  - intros k r Hk. by rewrite lookup_empty in Hk.
  - intros i x m' acc Hi IH k r Hk.
    apply lookup_insert_Some in Hk as [[-> _]|[_ Hk]]; [lia|].
    specialize (IH k r Hk). lia.
Qed.

Lemma next_rowid_fresh db : db_borrow db !! next_rowid db = None.
Proof.
  destruct (db_borrow db !! next_rowid db) as [r|] eqn:Hk; [|done].
  apply max_rowid_ge in Hk. unfold next_rowid in Hk. lia.
Qed.

Lemma next_rowid_above_seq db : db_seq db < next_rowid db.
Proof. unfold next_rowid. lia. Qed.

(** ** The queries *)

Lemma has_open_loan_true db u isbn :
  has_open_loan db u isbn = true ↔ holds_open db u isbn.
Proof.
  unfold has_open_loan, holds_open.
  rewrite bool_decide_eq_true, filter_nonempty_iff.
  unfold open_pair. simpl. naive_solver.
Qed.

Lemma has_open_loan_false db u isbn :
  has_open_loan db u isbn = false ↔ ¬ holds_open db u isbn.
Proof.
  rewrite <- has_open_loan_true. destruct (has_open_loan db u isbn); naive_solver.
Qed.

Lemma quota_role self : quota self = quota_of_role (role self).
Proof. reflexivity. Qed.

Lemma current_user_uid db s self : current_user db s = Some self → uid self = s.
Proof.
  unfold current_user. case_bool_decide; [done|].
  destruct (db_user db !! s); [|done]. by intros [= <-].
Qed.

Lemma current_user_role db s self :
  current_user db s = Some self →
  ∃ row, db_user db !! s = Some row ∧ role self = u_role row.
Proof.
  unfold current_user. case_bool_decide; [done|].
  destruct (db_user db !! s) as [row|]; [|done]. intros [= <-]. eauto.
Qed.

(** ** What a call of [borrow] does *)

Lemma borrow_Return self isbn today db db' :
  borrow self isbn today db = (Return, db') →
  ∃ book,
    db_book db !! isbn = Some book ∧ 0 < b_remain book ∧
    ¬ holds_open db (uid self) isbn ∧
    count_open_loans db (uid self) < quota self ∧
    date_add today 90 = Some (today + 90) ∧
    db' = after_borrow self isbn today (today + 90) db.
Proof.
  unfold borrow. destruct (db_book db !! isbn) as [book|]; [|done].
  case_bool_decide as Hrem; [done|].
  destruct (has_open_loan db (uid self) isbn) eqn:Hdup; [done|].
  case_bool_decide as Hq; [done|].
  destruct (date_add today 90) as [due|] eqn:Hdue; [|done].
  intros [= <-]. exists book.
  assert (due = today + 90) as ->.
  { unfold date_add in Hdue. case_bool_decide; by simplify_eq. }
  apply has_open_loan_false in Hdup. repeat split; try done; lia.
Qed.

Lemma borrow_Raise self isbn today db e db' :
  borrow self isbn today db = (Raise e, db') → db' = db.
Proof.
  unfold borrow. repeat case_match; by intros [= <-].
Qed.

Lemma borrow_no_stock self isbn today db :
  no_stock db isbn → borrow self isbn today db = (Raise NoBook, db).
Proof.
  unfold borrow. intros [Hnone|(b & Hb & Hrem)].
  - by rewrite Hnone.
  - rewrite Hb. by rewrite bool_decide_eq_true_2.
Qed.

Lemma borrow_in_stock isbn db :
  ¬ no_stock db isbn →
  ∃ book, db_book db !! isbn = Some book ∧ 0 < b_remain book.
Proof.
  unfold no_stock. intros Hns.
  destruct (db_book db !! isbn) as [book|]; [|destruct Hns; by left].
  exists book. split; [done|].
  destruct (decide (0 < b_remain book)); [done|].
  destruct Hns. right. exists book. split; [done|lia].
Qed.

Lemma in_stock_not_no_stock isbn db book :
  db_book db !! isbn = Some book → 0 < b_remain book → ¬ no_stock db isbn.
Proof.
  intros Hb Hrem [Hnone|(b & Hb' & Hle)]; simplify_eq. lia.
Qed.

Lemma borrow_duplicate self isbn today db :
  ¬ no_stock db isbn → holds_open db (uid self) isbn →
  borrow self isbn today db = (Raise HasBorrowed, db).
Proof.
  intros (book & Hb & Hrem)%borrow_in_stock Hdup.
  apply has_open_loan_true in Hdup.
  unfold borrow. rewrite Hb, Hdup.
  by rewrite bool_decide_eq_false_2 by lia.
Qed.

Lemma borrow_out_of_quota self isbn today db :
  ¬ no_stock db isbn → ¬ holds_open db (uid self) isbn →
  quota self ≤ count_open_loans db (uid self) →
  borrow self isbn today db
  = (Raise (OutOfQuota (count_open_loans db (uid self))), db).
Proof.
  intros (book & Hb & Hrem)%borrow_in_stock Hdup Hq.
  apply has_open_loan_false in Hdup.
  unfold borrow. rewrite Hb, Hdup.
  rewrite bool_decide_eq_false_2 by lia.
  by rewrite bool_decide_eq_true_2 by done.
Qed.

(** ** What a call of [return_book] does *)

Lemma find_open_loan_Some db borrow_id u br :
  find_open_loan db borrow_id u = Some br ↔
  db_borrow db !! borrow_id = Some br ∧ br_uid br = u ∧ br_returned br = 0.
Proof.
  unfold find_open_loan. destruct (db_borrow db !! borrow_id) as [r|].
  - case_bool_decide; naive_solver.
  - naive_solver.
Qed.

Lemma find_open_loan_None db borrow_id u :
  find_open_loan db borrow_id u = None ↔
  ¬ ∃ br, db_borrow db !! borrow_id = Some br ∧ br_uid br = u ∧ br_returned br = 0.
Proof.
  destruct (find_open_loan db borrow_id u) as [br|] eqn:Hf.
  - apply find_open_loan_Some in Hf. naive_solver.
  - split; [|done]. intros _ (br & Hbr). apply find_open_loan_Some in Hbr.
    congruence.
Qed.

Lemma return_book_Return self borrow_id db db' :
  return_book self borrow_id db = (Return, db') →
  ∃ br, find_open_loan db borrow_id (uid self) = Some br ∧
        db' = after_return borrow_id br db.
Proof.
  unfold return_book. destruct (find_open_loan db borrow_id (uid self)) as [br|];
    [|done].
  intros [= <-]. eauto.
Qed.

Lemma return_book_Raise self borrow_id db e db' :
  return_book self borrow_id db = (Raise e, db') →
  e = LibException ∧ db' = db ∧ find_open_loan db borrow_id (uid self) = None.
Proof.
  unfold return_book. destruct (find_open_loan db borrow_id (uid self)) as [br|];
    [done|].
  by intros [= <- <-].
Qed.

(** ** Open-loan counts across the two updates *)

Lemma count_open_loans_after_borrow self isbn today due db u :
  count_open_loans (after_borrow self isbn today due db) u
  = count_open_loans db u + (if decide (u = uid self) then 1 else 0).
Proof.
  unfold count_open_loans, after_borrow. simpl.
  rewrite size_filter_insert_fresh by apply next_rowid_fresh.
  unfold open_of at 1. simpl.
  repeat case_decide; naive_solver lia.
Qed.

Lemma count_open_on_after_borrow self isbn today due db i :
  count_open_on (after_borrow self isbn today due db) i
  = count_open_on db i + (if decide (i = isbn) then 1 else 0).
Proof.
  unfold count_open_on, after_borrow. simpl.
  rewrite size_filter_insert_fresh by apply next_rowid_fresh.
  unfold open_on at 1. simpl.
  repeat case_decide; naive_solver lia.
Qed.

Lemma count_open_loans_after_return borrow_id br db u :
  db_borrow db !! borrow_id = Some br → br_returned br = 0 →
  count_open_loans (after_return borrow_id br db) u
  = count_open_loans db u - (if decide (u = br_uid br) then 1 else 0).
Proof.
  intros Hbr Hopen. unfold count_open_loans, after_return. simpl.
  case_decide as Hu.
  - rewrite <- (size_filter_alter_drop (open_of u) (with_returned 1) _ _ _ Hbr).
    + lia.
    + by split.
    + by intros [_ ?].
  - rewrite (filter_alter_same (open_of u) (with_returned 1) _ _ _ Hbr).
    + lia.
    + by intros [? _].
    + by intros [_ ?].
Qed.

Lemma count_open_on_after_return borrow_id br db i :
  db_borrow db !! borrow_id = Some br → br_returned br = 0 →
  count_open_on (after_return borrow_id br db) i
  = count_open_on db i - (if decide (i = br_isbn br) then 1 else 0).
Proof.
  intros Hbr Hopen. unfold count_open_on, after_return. simpl.
  case_decide as Hi.
  - rewrite <- (size_filter_alter_drop (open_on i) (with_returned 1) _ _ _ Hbr).
    + lia.
    + by split.
    + by intros [_ ?].
  - rewrite (filter_alter_same (open_on i) (with_returned 1) _ _ _ Hbr).
    + lia.
    + by intros [? _].
    + by intros [_ ?].
Qed.

Lemma count_open_loans_nonneg db u : 0 ≤ count_open_loans db u.
Proof. unfold count_open_loans. lia. Qed.

Lemma count_open_on_nonneg db i : 0 ≤ count_open_on db i.
Proof. unfold count_open_on. lia. Qed.

(** ** The invariant *)

Lemma Inv_initial d0 : initial d0 → Inv d0 d0.
Proof.
  intros [Hempty Hstock].
  assert (∀ i, count_open_on d0 i = 0) as Hon.
  { intros i. unfold count_open_on. by rewrite Hempty, map_filter_empty. }
  assert (∀ u, count_open_loans d0 u = 0) as Hof.
  { intros u. unfold count_open_loans. by rewrite Hempty, map_filter_empty. }
  split.
  - intros isbn. destruct (db_book d0 !! isbn) as [b|] eqn:Hb; [|done].
    rewrite Hon. split; [by apply (Hstock isbn)|lia].
  - intros id r. by rewrite Hempty, lookup_empty.
  - intros i j ri rj. by rewrite Hempty, lookup_empty.
  - intros u row _. rewrite Hof. unfold quota_of_role. case_bool_decide; lia.
Qed.

Lemma Inv_borrow d0 db self isbn today db' :
  (∀ row, db_user db !! uid self = Some row → role self = u_role row) →
  Inv d0 db →
  borrow self isbn today db = (Return, db') →
  Inv d0 db'.
Proof.
  intros Hrole [Hstock Href Huniq Hquota]
    (book & Hbook & Hrem & Hdup & Hq & _ & ->)%borrow_Return.
  split.
  - intros i. specialize (Hstock i).
    rewrite count_open_on_after_borrow. simpl.
    rewrite lookup_alter. case_decide as Hi.
    + subst i. rewrite decide_True by done. rewrite Hbook in Hstock |- *. simpl.
      destruct (db_book d0 !! isbn); [|done]. lia.
    + rewrite decide_False by done.
      destruct (db_book db !! i), (db_book d0 !! i); try done. lia.
  - intros id r. simpl. intros Hr.
    apply lookup_insert_Some in Hr as [[_ <-]|[_ Hr]]; simpl.
    + rewrite lookup_alter_eq, Hbook. by eexists.
    + apply Href in Hr as [b Hb]. rewrite lookup_alter.
      case_decide; subst; rewrite ?Hbook, ?Hb; by eexists.
  - intros i j ri rj. simpl. intros Hi Hj Hoi Hoj Hu Hs.
    apply lookup_insert_Some in Hi as [[<- <-]|[Hni Hi]];
      apply lookup_insert_Some in Hj as [[<- <-]|[Hnj Hj]]; simpl in *.
    + done.
    + destruct Hdup. by exists j, rj.
    + destruct Hdup. by exists i, ri.
    + by eapply Huniq.
  - intros u row. simpl. intros Hu.
    rewrite count_open_loans_after_borrow. case_decide as Heq.
    + subst u. rewrite <- (Hrole row Hu), <- quota_role. lia.
    + specialize (Hquota u row Hu). lia.
Qed.

Lemma Inv_return_book d0 db self borrow_id db' :
  Inv d0 db →
  return_book self borrow_id db = (Return, db') →
  Inv d0 db'.
Proof.
  intros [Hstock Href Huniq Hquota]
    (br & (Hbr & Hown & Hopen)%find_open_loan_Some & ->)%return_book_Return.
  split.
  - intros i. specialize (Hstock i).
    rewrite (count_open_on_after_return _ _ _ _ Hbr Hopen). simpl.
    rewrite lookup_alter. pose proof (count_open_on_nonneg db i).
    case_decide as Hi.
    + subst i. rewrite decide_True by done.
      destruct (db_book db !! br_isbn br), (db_book d0 !! br_isbn br);
        simpl; try done. lia.
    + rewrite decide_False by done.
      destruct (db_book db !! i), (db_book d0 !! i); try done. lia.
  - intros id r. simpl. intros Hr.
    apply lookup_alter_Some in Hr as [(-> & r0 & Hr0 & ->)|[_ Hr]]; simpl.
    + apply Href in Hr0 as [b Hb]. rewrite lookup_alter.
      case_decide as Hi; [rewrite Hi|]; rewrite Hb; by eexists.
    + apply Href in Hr as [b Hb]. rewrite lookup_alter.
      case_decide as Hi; [rewrite <- Hi in Hb|]; rewrite Hb; by eexists.
  - intros i j ri rj. simpl. intros Hi Hj Hoi Hoj Hu Hs.
    apply lookup_alter_Some in Hi as [(-> & r0 & Hr0 & ->)|[_ Hi]]; [done|].
    apply lookup_alter_Some in Hj as [(-> & r0 & Hr0 & ->)|[_ Hj]]; [done|].
    by eapply Huniq.
  - intros u row. simpl. intros Hu.
    rewrite (count_open_loans_after_return _ _ _ _ Hbr Hopen).
    specialize (Hquota u row Hu). case_decide; lia.
Qed.

Lemma Inv_frame d0 db db' :
  db_book db' = db_book db → db_borrow db' = db_borrow db →
  (∀ u row', db_user db' !! u = Some row' →
     ∃ row, db_user db !! u = Some row ∧ u_role row' = u_role row) →
  Inv d0 db → Inv d0 db'.
Proof.
  intros Hbook Hborrow Huser [Hstock Href Huniq Hquota].
  split.
  - intros i. specialize (Hstock i). unfold count_open_on in *.
    by rewrite Hbook, Hborrow.
  - intros id r. rewrite Hbook, Hborrow. apply Href.
  - unfold one_open_per_pair. by rewrite Hborrow.
  - intros u row' (row & Hrow & ->)%Huser. unfold count_open_loans in *.
    rewrite Hborrow. eauto.
Qed.

Lemma Inv_step d0 db db' : Inv d0 db → step db db' → Inv d0 db'.
Proof.
  intros HI Hstep. destruct Hstep as [s self c db Hcur].
  pose proof (current_user_uid _ _ _ Hcur) as Huid.
  destruct (current_user_role _ _ _ Hcur) as (row & Hrow & Hrole).
  destruct c as [isbn today|borrow_id|v|v|cid|cid|]; simpl.
  - destruct (borrow self isbn today db) as [[|e] db'] eqn:Hb; simpl.
    + eapply Inv_borrow; [|done|done].
      intros row'. rewrite Huid, Hrow. by intros [= <-].
    + by apply borrow_Raise in Hb as ->.
  - destruct (return_book self borrow_id db) as [[|e] db'] eqn:Hr; simpl.
    + by eapply Inv_return_book.
    + by apply return_book_Raise in Hr as (_ & -> & _).
  - unfold name_setter. case_bool_decide; [done|]. simpl.
    apply (Inv_frame d0 db); try done. simpl. intros u row'.
    intros [(_ & r0 & Hr0 & ->)|[_ Hr]]%lookup_alter_Some; eauto.
  - unfold age_setter. case_bool_decide; [done|]. simpl.
    apply (Inv_frame d0 db); try done. simpl. intros u row'.
    intros [(_ & r0 & Hr0 & ->)|[_ Hr]]%lookup_alter_Some; eauto.
  - case_bool_decide; [|done]. simpl. apply (Inv_frame d0 db); eauto.
  - case_bool_decide; [|done]. simpl. apply (Inv_frame d0 db); eauto.
  - done.
Qed.

Lemma Inv_reachable d0 db : initial d0 → reachable d0 db → Inv d0 db.
Proof.
  intros Hinit Hreach. revert db Hreach. apply rtc_ind_r.
  - by apply Inv_initial.
  - intros db db' _ Hstep IH. by eapply Inv_step.
Qed.

Lemma run_calls_reachable cs db : reachable db (run_calls cs db).
Proof.
  revert db. induction cs as [|[s c] cs IH]; intros db; simpl.
  - apply rtc_refl.
  - destruct (current_user db s) as [self|] eqn:Hcur; [|apply IH].
    eapply rtc_l; [|apply IH]. by econstructor.
Qed.

Lemma init_db_initial h n : initial (init_db h n).
Proof.
  split; [done|]. unfold init_db. simpl.
  repeat (apply map_Forall_insert_2; [simpl; lia|]).
  apply map_Forall_empty.
Qed.

(** ** Sample data *)

Lemma sample_sessions :
  current_user Sample.db0 "S001" = Some Sample.alice ∧
  current_user Sample.db0 "S002" = Some Sample.bob ∧
  current_user Sample.db0 "T001" = Some Sample.zhang.
Proof. repeat split; vm_compute; reflexivity. Qed.

(** * The borrowing rules *)

(** C1. [borrow] fails with [NoBook] when the book is absent or has no
    copy left; otherwise with [HasBorrowed] when the borrower holds an
    open loan of the title; otherwise with [OutOfQuota] when the
    borrower's open loans have reached the quota.  The first clause
    asks nothing of the later conditions and the second nothing of the
    third, so when several conditions hold at once the earliest in
    this order is the failure that surfaces (stated again as the last
    two clauses). *)
Theorem borrow_check_order self isbn today db :
  (no_stock db isbn →
     borrow self isbn today db = (Raise NoBook, db)) ∧
  (¬ no_stock db isbn → holds_open db (uid self) isbn →
     borrow self isbn today db = (Raise HasBorrowed, db)) ∧
  (¬ no_stock db isbn → ¬ holds_open db (uid self) isbn →
   quota self ≤ count_open_loans db (uid self) →
     borrow self isbn today db
     = (Raise (OutOfQuota (count_open_loans db (uid self))), db)) ∧
  (no_stock db isbn → holds_open db (uid self) isbn →
   quota self ≤ count_open_loans db (uid self) →
     (borrow self isbn today db).1 = Raise NoBook) ∧
  (¬ no_stock db isbn → holds_open db (uid self) isbn →
   quota self ≤ count_open_loans db (uid self) →
     (borrow self isbn today db).1 = Raise HasBorrowed).
Proof.
  repeat split.
  - apply borrow_no_stock.
  - apply borrow_duplicate.
  - apply borrow_out_of_quota.
  - intros Hns _ _. by rewrite borrow_no_stock.
  - intros Hns Hdup _. by rewrite borrow_duplicate.
Qed.

(** C1 at work: with both copies out and Alice holding one of them, her
    second request meets the stock check first. *)
Example borrow_check_order_sample :
  no_stock Sample.both_copies_out Sample.algorithms_book ∧
  holds_open Sample.both_copies_out "S001" Sample.algorithms_book ∧
  (borrow Sample.alice Sample.algorithms_book Sample.day
          Sample.both_copies_out).1 = Raise NoBook.
Proof.
  assert (no_stock Sample.both_copies_out Sample.algorithms_book) as Hns.
  { right. eexists. split; [vm_compute; reflexivity|]. simpl. lia. }
  split; [done|]. split.
  - exists 1, (mkBorrowRow "S001" Sample.algorithms_book Sample.day
                           (Sample.day + 90) 0).
    split; [vm_compute; reflexivity|done].
  - by rewrite (proj1 (borrow_check_order _ _ _ _) Hns).
Defined.

(** ** Stock *)

Lemma borrow_takes_one_copy self isbn today db db' :
  borrow self isbn today db = (Return, db') →
  ∃ b, db_book db !! isbn = Some b ∧
       db_book db' = <[isbn := with_remain (λ n, n - 1) b]> (db_book db).
Proof.
  intros (book & Hbook & _ & _ & _ & _ & ->)%borrow_Return.
  exists book. split; [done|]. simpl. by apply alter_as_insert.
Qed.

Lemma return_book_gives_one_copy d0 db self borrow_id db' :
  Inv d0 db →
  return_book self borrow_id db = (Return, db') →
  ∃ br b, db_borrow db !! borrow_id = Some br ∧
          br_uid br = uid self ∧ br_returned br = 0 ∧
          db_book db !! br_isbn br = Some b ∧
          db_borrow db' = <[borrow_id := with_returned 1 br]> (db_borrow db) ∧
          db_book db' = <[br_isbn br := with_remain (λ n, n + 1) b]> (db_book db).
Proof.
  intros HI (br & (Hbr & Hown & Hopen)%find_open_loan_Some & ->)%return_book_Return.
  destruct (inv_ref _ _ HI _ _ Hbr) as [b Hb].
  exists br, b. repeat split; try done; simpl; by apply alter_as_insert.
Qed.



(** ** One open loan per borrower and title *)





(** ** Quota *)

Lemma borrow_OutOfQuota_iff self isbn today db n :
  (borrow self isbn today db).1 = Raise (OutOfQuota n) ↔
  ¬ no_stock db isbn ∧ ¬ holds_open db (uid self) isbn ∧
  quota self ≤ count_open_loans db (uid self) ∧
  n = count_open_loans db (uid self).
Proof.
  split.
  - unfold borrow. destruct (db_book db !! isbn) as [book|] eqn:Hbook; [|done].
    case_bool_decide as Hrem; [done|].
    destruct (has_open_loan db (uid self) isbn) eqn:Hdup; [done|].
    case_bool_decide as Hq.
    + simpl. intros [= <-]. apply has_open_loan_false in Hdup.
      repeat split; try done. eapply in_stock_not_no_stock; [done|lia].
    + by destruct (date_add today 90).
  - intros (Hns & Hdup & Hq & ->). by rewrite borrow_out_of_quota.
Qed.




(** ** A successful [borrow] *)

(** C5. A [borrow] that returns creates exactly one loan: the table
    gains one row, under an id that no row had and that is larger
    than every id in the table, with the borrower, the title, the
    current date as borrow date, that date plus 90 days as due date
    and [returned] 0; every earlier row is as it was; and the book's
    remaining-copies count goes down by one. *)
Theorem borrow_creates_loan self isbn today db db' :
  borrow self isbn today db = (Return, db') →
  ∃ id book,
    db_borrow db !! id = None ∧
    (∀ id' r, db_borrow db !! id' = Some r → id' < id) ∧
    db_borrow db'
    = <[id := mkBorrowRow (uid self) isbn today (today + 90) 0]> (db_borrow db) ∧
    size (db_borrow db') = S (size (db_borrow db)) ∧
    (∀ id' r, db_borrow db !! id' = Some r → db_borrow db' !! id' = Some r) ∧
    db_book db !! isbn = Some book ∧
    db_book db' = <[isbn := with_remain (λ n, n - 1) book]> (db_book db) ∧
    b_remain <$> db_book db' !! isbn = Some (b_remain book - 1).
Proof.
  intros Hb. pose proof (borrow_takes_one_copy _ _ _ _ _ Hb) as (b & Hbook & Hbooks).
  apply borrow_Return in Hb as (book & ? & _ & _ & _ & _ & ->). simplify_eq.
  exists (next_rowid db), book. simpl in *.
  pose proof (next_rowid_fresh db) as Hfresh.
  repeat split; try done.
  - intros id' r Hr%max_rowid_ge. unfold next_rowid. lia.
  - by apply map_size_insert_None.
  - intros id' r Hr. rewrite lookup_insert_ne; [done|]. congruence.
  - by rewrite Hbooks, lookup_insert_eq.
Qed.

Lemma borrow_creates_loan_witness :
  ∃ db', borrow Sample.alice Sample.python_book Sample.day Sample.db0 = (Return, db') ∧
  ∃ id book,
    db_borrow Sample.db0 !! id = None ∧
    (∀ id' r, db_borrow Sample.db0 !! id' = Some r → id' < id) ∧
    db_borrow db'
    = <[id := mkBorrowRow "S001" Sample.python_book Sample.day (Sample.day + 90) 0]>
        (db_borrow Sample.db0) ∧
    size (db_borrow db') = S (size (db_borrow Sample.db0)) ∧
    (∀ id' r, db_borrow Sample.db0 !! id' = Some r → db_borrow db' !! id' = Some r) ∧
    db_book Sample.db0 !! Sample.python_book = Some book ∧
    db_book db'
    = <[Sample.python_book := with_remain (λ n, n - 1) book]> (db_book Sample.db0) ∧
    b_remain <$> db_book db' !! Sample.python_book = Some (b_remain book - 1).
Proof.
  eexists. split; [vm_compute; reflexivity|].
  apply (borrow_creates_loan Sample.alice Sample.python_book Sample.day Sample.db0).
  vm_compute. reflexivity.
Defined.

(** ** [return_book] *)

Lemma return_book_outcome self borrow_id db :
  (return_book self borrow_id db).1 = Return ∨
  (return_book self borrow_id db).1 = Raise LibException.
Proof.
  unfold return_book. destruct (find_open_loan db borrow_id (uid self)); auto.
Qed.



(** ** The [name] setter *)

(** C7, as the code has it.  The setter raises [ValueError] exactly
    when the new name is the empty string, and then changes nothing.
    Any other string, blank ones included, is stored: the [name]
    column of the person's row and the [_name] attribute of the object
    become the new value, and nothing else changes. *)
Theorem name_setter_spec self value db :
  ((name_setter self value db).1.1 = Raise ValueError ↔ value = "") ∧
  (value = "" → name_setter self value db = (Raise ValueError, self, db)) ∧
  (value ≠ "" →
   ∃ db', name_setter self value db = (Return, set__name value self, db') ∧
          _name (set__name value self) = value ∧
          db_user db' = alter (with_name value) (uid self) (db_user db) ∧
          (∀ row, db_user db !! uid self = Some row →
                  db_user db' !! uid self = Some (with_name value row) ∧
                  u_name (with_name value row) = value) ∧
          (∀ u, u ≠ uid self → db_user db' !! u = db_user db !! u) ∧
          db_book db' = db_book db ∧ db_borrow db' = db_borrow db ∧
          db_class db' = db_class db ∧ db_student db' = db_student db ∧
          db_teacher_class db' = db_teacher_class db).
Proof.
  unfold name_setter. case_bool_decide as Hv; simpl.
  - split; [done|]. split; [done|]. by intros [].
  - split; [split; [done|by intros ?]|]. split; [done|]. intros _.
    eexists. split; [done|]. simpl. repeat split; try done.
    + rewrite lookup_alter_eq. by destruct (db_user db !! uid self); simplify_eq.
    + intros u Hu. by rewrite lookup_alter_ne.
Qed.

(** Against C7 as the specification words it: a name made of one
    space is blank after
    trimming, yet the setter accepts and stores it. *)
Lemma blank_name_accepted :
  current_user Sample.db0 "S001" = Some Sample.alice ∧
  (name_setter Sample.alice " " Sample.db0).1.1 = Return ∧
  (name_setter Sample.alice " " Sample.db0).1.1 ≠ Raise ValueError ∧
  u_name <$> db_user (name_setter Sample.alice " " Sample.db0).2 !! "S001"
  = Some " ".
Proof.
  split; [vm_compute; reflexivity|].
  split; [vm_compute; reflexivity|].
  split; [vm_compute; discriminate|].
  vm_compute. reflexivity.
Qed.

(** The route in front of the setter never lets [ValueError] out: a
    name that is empty after stripping is skipped without any failure
    and without any change. *)
Lemma user_update_name_blank strip self form_name db :
  strip form_name = "" →
  user_update_name strip self form_name db = (None, self, db).
Proof. intros Hs. unfold user_update_name. by rewrite Hs. Qed.

Lemma user_update_name_never_fails strip self form_name db :
  (user_update_name strip self form_name db).1.1 ≠ Some (Raise ValueError).
Proof.
  unfold user_update_name. case_bool_decide as Hs; [done|].
  unfold name_setter. by rewrite bool_decide_eq_false_2.
Qed.

(** ** Teacher and class *)

(** C8. Associating a teacher with a class twice in a row leaves the
    same table as associating once, and associating a pair that is
    already in the table returns normally and changes nothing. *)
Theorem add_class_idempotent self class_id db :
  add_class self class_id (add_class self class_id db).2
  = add_class self class_id db ∧
  (add_class self class_id db).1 = Return ∧
  ((uid self, class_id) ∈ db_teacher_class db →
   add_class self class_id db = (Return, db)).
Proof.
  unfold add_class, set_teacher_class. simpl. split; [|split; [done|]].
  - do 2 f_equal. set_solver.
  - intros Hin. destruct db as [us cs ss tc bs ls n]. simpl in *.
    do 2 f_equal. set_solver.
Qed.

Example add_class_idempotent_sample :
  (("T001", "C001") ∈ db_teacher_class Sample.db0) ∧
  add_class Sample.zhang "C001" Sample.db0 = (Return, Sample.db0).
Proof.
  assert (("T001", "C001") ∈ db_teacher_class Sample.db0) as Hin.
  { unfold Sample.db0, init_db. simpl. set_solver. }
  split; [done|].
  by apply (add_class_idempotent Sample.zhang "C001" Sample.db0).
Defined.

(** ** What the two operations leave alone *)

Lemma same_but_remain_with f b : same_but_remain b (with_remain f b).
Proof. by repeat split. Qed.

Lemma same_but_returned_with v r : same_but_returned r (with_returned v r).
Proof. by repeat split. Qed.

Lemma borrow_frame self isbn today db :
  let db' := (borrow self isbn today db).2 in
  same_people_and_classes db db' ∧
  (∀ i, i ≠ isbn → db_book db' !! i = db_book db !! i) ∧
  option_Forall2 same_but_remain (db_book db !! isbn) (db_book db' !! isbn) ∧
  (db_borrow db' = db_borrow db ∨
   ∃ id r, db_borrow db !! id = None ∧
           db_borrow db' = <[id := r]> (db_borrow db) ∧
           br_uid r = uid self ∧ br_isbn r = isbn).
Proof.
  destruct (borrow self isbn today db) as [[|e] db'] eqn:Hb; simpl.
  - apply borrow_Return in Hb as (book & Hbook & _ & _ & _ & _ & ->). simpl.
    split; [done|]. split; [|split].
    + intros i Hi. by rewrite lookup_alter_ne.
    + rewrite lookup_alter_eq, Hbook. constructor. apply same_but_remain_with.
    + right. eexists _, _. split; [apply next_rowid_fresh|]. by repeat split.
  - apply borrow_Raise in Hb as ->. split; [done|]. split; [done|].
    split; [|by left].
    destruct (db_book db !! isbn); constructor. by repeat split.
Qed.

Lemma return_book_frame self borrow_id db :
  let db' := (return_book self borrow_id db).2 in
  same_people_and_classes db db' ∧
  db_seq db' = db_seq db ∧
  (∀ i, i ≠ borrow_id → db_borrow db' !! i = db_borrow db !! i) ∧
  option_Forall2 same_but_returned
    (db_borrow db !! borrow_id) (db_borrow db' !! borrow_id) ∧
  match db_borrow db !! borrow_id with
  | Some br =>
      (∀ i, i ≠ br_isbn br → db_book db' !! i = db_book db !! i) ∧
      option_Forall2 same_but_remain
        (db_book db !! br_isbn br) (db_book db' !! br_isbn br)
  | None => db_book db' = db_book db
  end.
Proof.
  destruct (return_book self borrow_id db) as [[|e] db'] eqn:Hr; simpl.
  - apply return_book_Return in Hr
      as (br & (Hbr & _ & _)%find_open_loan_Some & ->). simpl.
    split; [done|]. split; [done|]. split; [|split].
    + intros i Hi. by rewrite lookup_alter_ne.
    + rewrite lookup_alter_eq, Hbr. constructor. apply same_but_returned_with.
    + rewrite Hbr. split.
      * intros i Hi. by rewrite lookup_alter_ne.
      * rewrite lookup_alter_eq. destruct (db_book db !! br_isbn br);
          constructor. apply same_but_remain_with.
  - apply return_book_Raise in Hr as (_ & -> & _).
    split; [done|]. split; [done|]. split; [done|]. split.
    + destruct (db_borrow db !! borrow_id); constructor. by repeat split.
    + destruct (db_borrow db !! borrow_id) as [br|]; [|done].
      split; [done|]. destruct (db_book db !! br_isbn br); constructor.
      by repeat split.
Qed.

(** C10. Whether it returns or fails, [borrow] changes at most the
    remaining-copies count of the book with the given ISBN and the
    loan table (with its row-id counter), which gains at most one
    row, for that borrower and that ISBN; every other book, the other columns of that book,
    every person and all class, roster and association rows are as
    before.  [return_book] changes at most the [returned] flag of the
    loan with the given id and the remaining-copies count of that
    loan's book. *)
Theorem borrow_return_frame self db :
  (∀ isbn today,
     let db' := (borrow self isbn today db).2 in
     same_people_and_classes db db' ∧
     (∀ i, i ≠ isbn → db_book db' !! i = db_book db !! i) ∧
     option_Forall2 same_but_remain (db_book db !! isbn) (db_book db' !! isbn) ∧
     (db_borrow db' = db_borrow db ∨
      ∃ id r, db_borrow db !! id = None ∧
              db_borrow db' = <[id := r]> (db_borrow db) ∧
              br_uid r = uid self ∧ br_isbn r = isbn)) ∧
  (∀ borrow_id,
     let db' := (return_book self borrow_id db).2 in
     same_people_and_classes db db' ∧
     db_seq db' = db_seq db ∧
     (∀ i, i ≠ borrow_id → db_borrow db' !! i = db_borrow db !! i) ∧
     option_Forall2 same_but_returned
       (db_borrow db !! borrow_id) (db_borrow db' !! borrow_id) ∧
     match db_borrow db !! borrow_id with
     | Some br =>
         (∀ i, i ≠ br_isbn br → db_book db' !! i = db_book db !! i) ∧
         option_Forall2 same_but_remain
           (db_book db !! br_isbn br) (db_book db' !! br_isbn br)
     | None => db_book db' = db_book db
     end).
Proof.
  split.
  - intros isbn today. apply borrow_frame.
  - intros borrow_id. apply return_book_frame.
Qed.

(** ** Interleaved and serial executions of two [borrow] calls *)

Lemma run_schedule_first w h0 h1 sched :
  run_schedule (0%nat :: sched) w [h0; h1]
  = match handler_step w h0 with
    | Some (w', h') => run_schedule sched w' [h'; h1]
    | None => run_schedule sched w [h0; h1]
    end.
Proof. reflexivity. Qed.

Lemma run_schedule_second w h0 h1 sched :
  run_schedule (1%nat :: sched) w [h0; h1]
  = match handler_step w h1 with
    | Some (w', h') => run_schedule sched w' [h0; h']
    | None => run_schedule sched w [h0; h1]
    end.
Proof. reflexivity. Qed.

Ltac use_equations :=
  repeat match goal with
         | H : ?x = _ |- context [?x] => rewrite H
         end.

Ltac handler_steps :=
  use_equations;
  repeat (first [rewrite run_schedule_first | rewrite run_schedule_second];
          unfold handler_step at 1;
          cbn [h_pc h_isbn h_self h_today w_db w_locked at_pc];
          use_equations; cbn beta iota).

(** A handler that runs its six statements with no other handler in
    between does what the method [borrow] does. *)
Lemma run_first a isbn ta db h sched :
  run_schedule (replicate 6 0%nat ++ sched) (mkWorld db false)
               [start_borrow a isbn ta; h]
  = run_schedule sched (mkWorld (borrow a isbn ta db).2 false)
                 [mkHandler a isbn ta (Finished (borrow a isbn ta db).1); h].
Proof.
  unfold borrow, start_borrow. cbn [replicate app].
  destruct (db_book db !! isbn) as [book|] eqn:Hbook; [|by handler_steps].
  destruct (bool_decide (b_remain book ≤ 0)) eqn:Hrem; [by handler_steps|].
  destruct (has_open_loan db (uid a) isbn) eqn:Hdup; [by handler_steps|].
  destruct (bool_decide (quota a ≤ count_open_loans db (uid a))) eqn:Hq;
    [by handler_steps|].
  destruct (date_add ta 90) as [due|] eqn:Hdue; by handler_steps.
Qed.

Lemma run_second b isbn tb db h sched :
  run_schedule (replicate 6 1%nat ++ sched) (mkWorld db false)
               [h; start_borrow b isbn tb]
  = run_schedule sched (mkWorld (borrow b isbn tb db).2 false)
                 [h; mkHandler b isbn tb (Finished (borrow b isbn tb db).1)].
Proof.
  unfold borrow, start_borrow. cbn [replicate app].
  destruct (db_book db !! isbn) as [book|] eqn:Hbook; [|by handler_steps].
  destruct (bool_decide (b_remain book ≤ 0)) eqn:Hrem; [by handler_steps|].
  destruct (has_open_loan db (uid b) isbn) eqn:Hdup; [by handler_steps|].
  destruct (bool_decide (quota b ≤ count_open_loans db (uid b))) eqn:Hq;
    [by handler_steps|].
  destruct (date_add tb 90) as [due|] eqn:Hdue; by handler_steps.
Qed.

Lemma borrow_size self isbn today db :
  size (db_borrow (borrow self isbn today db).2)
  = if decide ((borrow self isbn today db).1 = Return)
    then S (size (db_borrow db)) else size (db_borrow db).
Proof.
  destruct (borrow self isbn today db) as [[|e] db'] eqn:Hb; simpl.
  - apply borrow_Return in Hb as (_ & _ & _ & _ & _ & _ & ->). simpl.
    apply map_size_insert_None, next_rowid_fresh.
  - by apply borrow_Raise in Hb as ->.
Qed.

Lemma borrow_last_copy self isbn today db db' book :
  db_book db !! isbn = Some book → b_remain book = 1 →
  borrow self isbn today db = (Return, db') →
  b_remain <$> db_book db' !! isbn = Some 0 ∧ no_stock db' isbn.
Proof.
  intros Hbook Hone (b & Hb & Heq)%borrow_takes_one_copy. simplify_eq.
  unfold no_stock. rewrite Heq, lookup_insert_eq. simpl. split.
  - f_equal. lia.
  - right. eexists. split; [done|]. simpl. lia.
Qed.

(** C9, as the code has it.  When two [borrow] calls for the last
    copy of a title run one after the other, each running all its
    statements before the other starts, they behave as two calls of
    the method in that order; at most one returns; if the first
    returns, the count is 0 afterwards and the second fails with
    [NoBook]; and the loan table grows by one row per call that
    returns.  (The code takes no lock and opens no transaction around
    its checks, so nothing extends this to interleaved statements.) *)
Theorem last_copy_serial db a b isbn ta tb book :
  db_book db !! isbn = Some book → b_remain book = 1 →
  ∃ oa ob db',
    run_schedule (replicate 6 0%nat ++ replicate 6 1%nat) (mkWorld db false)
                 [start_borrow a isbn ta; start_borrow b isbn tb]
    = (mkWorld db' false,
       [mkHandler a isbn ta (Finished oa); mkHandler b isbn tb (Finished ob)]) ∧
    (oa, db') = (let r := borrow a isbn ta db in
                 ((r.1), (borrow b isbn tb r.2).2)) ∧
    ob = (borrow b isbn tb (borrow a isbn ta db).2).1 ∧
    ¬ (oa = Return ∧ ob = Return) ∧
    (oa = Return →
       ob = Raise NoBook ∧ b_remain <$> db_book db' !! isbn = Some 0) ∧
    size (db_borrow db')
    = (size (db_borrow db) + (if decide (oa = Return) then 1 else 0)
       + (if decide (ob = Return) then 1 else 0))%nat.
Proof.
  intros Hbook Hone.
  exists (borrow a isbn ta db).1,
         (borrow b isbn tb (borrow a isbn ta db).2).1,
         (borrow b isbn tb (borrow a isbn ta db).2).2.
  split.
  { rewrite run_first.
    rewrite <- (app_nil_r (replicate 6 1%nat)). by rewrite run_second. }
  split; [done|]. split; [done|].
  assert ((borrow a isbn ta db).1 = Return →
          borrow b isbn tb (borrow a isbn ta db).2
          = (Raise NoBook, (borrow a isbn ta db).2) ∧
          b_remain <$> db_book (borrow a isbn ta db).2 !! isbn = Some 0) as Hfirst.
  { intros Ha. destruct (borrow a isbn ta db) as [oa da] eqn:Hba.
    simpl in Ha. subst oa. simpl.
    destruct (borrow_last_copy _ _ _ _ _ _ Hbook Hone Hba) as [Hz Hns].
    split; [by apply borrow_no_stock|done]. }
  split; [|split].
  - intros [Ha Hb]. destruct (Hfirst Ha) as [Heq _]. rewrite Heq in Hb. done.
  - intros Ha. destruct (Hfirst Ha) as [Heq Hz]. by rewrite Heq.
  - rewrite !borrow_size. repeat case_decide; lia.
Qed.

Lemma last_copy_serial_witness :
  ∃ db',
    run_schedule (replicate 6 0%nat ++ replicate 6 1%nat)
                 (mkWorld Sample.one_copy_left false)
                 [start_borrow Sample.alice Sample.algorithms_book Sample.day;
                  start_borrow Sample.bob Sample.algorithms_book Sample.day]
    = (mkWorld db' false,
       [mkHandler Sample.alice Sample.algorithms_book Sample.day (Finished Return);
        mkHandler Sample.bob Sample.algorithms_book Sample.day
                  (Finished (Raise NoBook))]) ∧
    b_remain <$> db_book db' !! Sample.algorithms_book = Some 0.
Proof.
  destruct (last_copy_serial Sample.one_copy_left Sample.alice Sample.bob
              Sample.algorithms_book Sample.day Sample.day
              (mkBookRow "算法导论" "CS" "CLRS" "清华大学" "算法 经典" 1))
    as (oa & ob & db' & Hrun & Hseq & Hob & _ & Hfirst & _).
  - vm_compute. reflexivity.
  - reflexivity.
  - assert (oa = Return) as ->.
    { apply (f_equal fst) in Hseq. simpl in Hseq. rewrite Hseq.
      vm_compute. reflexivity. }
    destruct (Hfirst eq_refl) as [-> Hz].
    exists db'. split; [exact Hrun|exact Hz].
Defined.

(** Against C9 as the specification words it.  One copy of a title
    is left.  Alice's and
    Bob's handlers both run their three checks before either writes:
    both see the copy, both calls return, two loans are created, and
    the remaining-copies count ends at -1.  Neither call fails with
    [NoBook]. *)
Lemma last_copy_race :
  initial Sample.db0 ∧ reachable Sample.db0 Sample.one_copy_left ∧
  b_remain <$> db_book Sample.one_copy_left !! Sample.algorithms_book = Some 1 ∧
  let r := run_schedule [0; 0; 0; 1; 1; 1; 0; 0; 0; 1; 1; 1]%nat
             (mkWorld Sample.one_copy_left false)
             [start_borrow Sample.alice Sample.algorithms_book Sample.day;
              start_borrow Sample.bob Sample.algorithms_book Sample.day] in
  h_pc <$> r.2 = [Finished Return; Finished Return] ∧
  w_locked r.1 = false ∧
  size (db_borrow (w_db r.1)) = S (S (size (db_borrow Sample.one_copy_left))) ∧
  holds_open (w_db r.1) "S001" Sample.algorithms_book ∧
  holds_open (w_db r.1) "S002" Sample.algorithms_book ∧
  b_remain <$> db_book (w_db r.1) !! Sample.algorithms_book = Some (-1).
Proof.
  split; [apply init_db_initial|]. split; [apply run_calls_reachable|].
  split; [vm_compute; reflexivity|]. simpl.
  split; [vm_compute; reflexivity|].
  split; [vm_compute; reflexivity|].
  split; [vm_compute; reflexivity|].
  split; [|split].
  - exists 2, (mkBorrowRow "S001" Sample.algorithms_book Sample.day
                           (Sample.day + 90) 0).
    split; [vm_compute; reflexivity|done].
  - exists 3, (mkBorrowRow "S002" Sample.algorithms_book Sample.day
                           (Sample.day + 90) 0).
    split; [vm_compute; reflexivity|done].
  - vm_compute. reflexivity.
Qed.

(** * The scenarios of the specification, run on the sample data *)

(** A student with two open loans asks for a third book that is on
    the shelf: [OutOfQuota], reporting two loans against a limit of
    two. *)
Example scenario_quota :
  quota Sample.alice = 2 ∧
  (borrow Sample.alice Sample.algorithms_book Sample.day
          Sample.alice_two_loans).1 = Raise (OutOfQuota 2).
Proof. split; vm_compute; reflexivity. Qed.

(** The same student asks twice in a row for the same title. *)
Example scenario_twice :
  let db1 := (borrow Sample.alice Sample.python_book Sample.day Sample.db0).2 in
  (borrow Sample.alice Sample.python_book Sample.day Sample.db0).1 = Return ∧
  (borrow Sample.alice Sample.python_book Sample.day db1).1 = Raise HasBorrowed.
Proof. split; vm_compute; reflexivity. Qed.

(** A teacher with four open loans returns one and can borrow again. *)
Example scenario_teacher :
  let four := run_calls [ ("T001", CallBorrow Sample.python_book Sample.day);
                          ("T001", CallBorrow Sample.analysis_book Sample.day);
                          ("T001", CallBorrow Sample.algorithms_book Sample.day);
                          ("T001", CallBorrow "9787021456789" Sample.day) ]
                        Sample.db0 in
  let three := (return_book Sample.zhang 2 four).2 in
  let again := borrow Sample.zhang "9787031234567" Sample.day three in
  count_open_loans four "T001" = 4 ∧
  (borrow Sample.zhang "9787031234567" Sample.day four).1 = Raise (OutOfQuota 4) ∧
  (return_book Sample.zhang 2 four).1 = Return ∧
  count_open_loans three "T001" = 3 ∧
  again.1 = Return ∧
  count_open_loans again.2 "T001" = 4.
Proof. repeat split; vm_compute; reflexivity. Qed.

(** A copy that comes back can go out again to someone else. *)
Example scenario_round_trip :
  let back := (return_book Sample.bob 2 Sample.both_copies_out).2 in
  (borrow Sample.zhang Sample.algorithms_book Sample.day
          Sample.both_copies_out).1 = Raise NoBook ∧
  (borrow Sample.zhang Sample.algorithms_book Sample.day back).1 = Return.
Proof. split; vm_compute; reflexivity. Qed.

(** * More of [models.py] *)

(** ** When [borrow] returns *)

Lemma borrow_Return_intro self isbn today db :
  ¬ no_stock db isbn → ¬ holds_open db (uid self) isbn →
  count_open_loans db (uid self) < quota self →
  1 ≤ today + 90 ≤ date_max_ordinal →
  borrow self isbn today db
  = (Return, after_borrow self isbn today (today + 90) db).
Proof.
  intros (book & Hb & Hrem)%borrow_in_stock Hdup%has_open_loan_false Hq Hd.
  unfold borrow, date_add. rewrite Hb, Hdup.
  rewrite bool_decide_eq_false_2 by lia.
  rewrite bool_decide_eq_false_2 by lia.
  by rewrite bool_decide_eq_true_2.
Qed.

Lemma borrow_OverflowError_iff self isbn today db :
  (borrow self isbn today db).1 = Raise OverflowError ↔
  ¬ no_stock db isbn ∧ ¬ holds_open db (uid self) isbn ∧
  count_open_loans db (uid self) < quota self ∧
  ¬ (1 ≤ today + 90 ≤ date_max_ordinal).
Proof.
  split.
  - unfold borrow, date_add.
    destruct (db_book db !! isbn) as [book|] eqn:Hbook; [|done].
    case_bool_decide as Hrem; [done|].
    destruct (has_open_loan db (uid self) isbn) eqn:Hdup; [done|].
    case_bool_decide as Hq; [done|]. case_bool_decide as Hd; [done|].
    intros _. apply has_open_loan_false in Hdup.
    repeat split; try done; [|lia].
    eapply in_stock_not_no_stock; [done|lia].
  - intros (Hns & Hdup%has_open_loan_false & Hq & Hd).
    apply borrow_in_stock in Hns as (book & Hb & Hrem).
    unfold borrow, date_add. rewrite Hb, Hdup.
    rewrite bool_decide_eq_false_2 by lia.
    rewrite bool_decide_eq_false_2 by lia.
    by rewrite bool_decide_eq_false_2.
Qed.

(** X1. [borrow] returns exactly when the book has a copy, the
    borrower holds no open loan of it, the borrower is below the
    quota, and the due date (today plus 90 days) is a date Python can
    represent.  A day too close to the end of year 9999 makes the date
    arithmetic raise [OverflowError], which is not one of the
    library's own exceptions; like every failure it leaves the
    database untouched, and no failure other than the four listed
    occurs. *)
Theorem borrow_returns_iff self isbn today db :
  ((borrow self isbn today db).1 = Return ↔
   ¬ no_stock db isbn ∧ ¬ holds_open db (uid self) isbn ∧
   count_open_loans db (uid self) < quota self ∧
   1 ≤ today + 90 ≤ date_max_ordinal) ∧
  ((borrow self isbn today db).1 = Raise OverflowError ↔
   ¬ no_stock db isbn ∧ ¬ holds_open db (uid self) isbn ∧
   count_open_loans db (uid self) < quota self ∧
   ¬ (1 ≤ today + 90 ≤ date_max_ordinal)) ∧
  (∀ e, (borrow self isbn today db).1 = Raise e →
        (e = NoBook ∨ e = HasBorrowed ∨
         e = OutOfQuota (count_open_loans db (uid self)) ∨ e = OverflowError) ∧
        is_LibException e = negb (bool_decide (e = OverflowError)) ∧
        (borrow self isbn today db).2 = db).
Proof.
  split; [|split].
  - split.
    + destruct (borrow self isbn today db) as [o db'] eqn:Hb. simpl.
      intros ->. apply borrow_Return in Hb
        as (book & Hbook & Hrem & Hdup & Hq & Hd & _).
      repeat split; try done; try (eapply in_stock_not_no_stock; done);
        unfold date_add in Hd; case_bool_decide; simplify_eq; lia.
    + intros (Hns & Hdup & Hq & Hd). by rewrite borrow_Return_intro.
  - apply borrow_OverflowError_iff.
  - intros e. destruct (borrow self isbn today db) as [o db'] eqn:Hb. simpl.
    intros ->. pose proof (borrow_Raise _ _ _ _ _ _ Hb) as ->.
    split; [|split; [|done]]; revert Hb; unfold borrow;
      repeat case_match; intros [= <-]; auto.
Qed.

(** ** Returning *)

Lemma with_remain_round_trip b :
  with_remain (λ n, n + 1) (with_remain (λ n, n - 1) b) = b.
Proof. destruct b. unfold with_remain. simpl. f_equal. lia. Qed.

Lemma return_book_Return_intro self borrow_id db br :
  db_borrow db !! borrow_id = Some br → br_uid br = uid self →
  br_returned br = 0 →
  return_book self borrow_id db = (Return, after_return borrow_id br db).
Proof.
  intros Hbr Hown Hopen. unfold return_book.
  by rewrite (proj2 (find_open_loan_Some _ _ _ _) (conj Hbr (conj Hown Hopen))).
Qed.

(** X2. A loan can be returned once: after a successful
    [return_book], returning the same loan again, by the borrower or
    by anyone else, fails with [LibException] and changes nothing. *)
Theorem return_book_only_once self other borrow_id db db' :
  return_book self borrow_id db = (Return, db') →
  return_book other borrow_id db' = (Raise LibException, db').
Proof.
  intros (br & (Hbr & _ & _)%find_open_loan_Some & ->)%return_book_Return.
  unfold return_book.
  assert (find_open_loan (after_return borrow_id br db) borrow_id (uid other)
          = None) as ->; [|done].
  apply find_open_loan_None. intros (r & Hr & _ & Hopen). simpl in Hr.
  rewrite lookup_alter_eq, Hbr in Hr. simpl in Hr. injection Hr as <-.
  simpl in Hopen. lia.
Qed.

Lemma return_book_only_once_witness :
  return_book Sample.bob 2 Sample.both_copies_out
  = (Return, (return_book Sample.bob 2 Sample.both_copies_out).2) ∧
  return_book Sample.bob 2 (return_book Sample.bob 2 Sample.both_copies_out).2
  = (Raise LibException, (return_book Sample.bob 2 Sample.both_copies_out).2).
Proof.
  assert (return_book Sample.bob 2 Sample.both_copies_out
          = (Return, (return_book Sample.bob 2 Sample.both_copies_out).2)) as H.
  { vm_compute. reflexivity. }
  split; [exact H|].
  exact (return_book_only_once Sample.bob Sample.bob 2 _ _ H).
Defined.

(** X3. Borrowing and at once returning the new loan is a round trip
    for the stock and for every open-loan count: the book table is
    exactly what it was, and what remains is one closed loan row under
    the id that [borrow] chose. *)
Theorem borrow_then_return self isbn today db db1 :
  borrow self isbn today db = (Return, db1) →
  ∃ db2,
    return_book self (next_rowid db) db1 = (Return, db2) ∧
    db_book db2 = db_book db ∧
    db_borrow db2
    = <[next_rowid db := mkBorrowRow (uid self) isbn today (today + 90) 1]>
        (db_borrow db) ∧
    (∀ u, count_open_loans db2 u = count_open_loans db u) ∧
    (∀ i, count_open_on db2 i = count_open_on db i).
Proof.
  intros (book & Hbook & _ & _ & _ & _ & ->)%borrow_Return.
  set (row := mkBorrowRow (uid self) isbn today (today + 90) 0).
  set (db1 := after_borrow self isbn today (today + 90) db).
  assert (db_borrow db1 !! next_rowid db = Some row) as Hrow
    by (simpl; apply lookup_insert_eq).
  exists (after_return (next_rowid db) row db1).
  split; [by apply return_book_Return_intro|].
  split; [|split; [|split]].
  - simpl. rewrite alter_alter_eq. apply alter_id.
    intros b _. apply with_remain_round_trip.
  - simpl. rewrite alter_insert_eq. done.
  - intros u.
    rewrite (count_open_loans_after_return _ _ _ _ Hrow eq_refl).
    unfold db1. rewrite count_open_loans_after_borrow. simpl.
    repeat case_decide; try done; lia.
  - intros i.
    rewrite (count_open_on_after_return _ _ _ _ Hrow eq_refl).
    unfold db1. rewrite count_open_on_after_borrow. simpl.
    repeat case_decide; try done; lia.
Qed.

Lemma borrow_then_return_witness :
  ∃ db1 db2,
    borrow Sample.alice Sample.python_book Sample.day Sample.db0 = (Return, db1) ∧
    return_book Sample.alice (next_rowid Sample.db0) db1 = (Return, db2) ∧
    db_book db2 = db_book Sample.db0.
Proof.
  eexists.
  destruct (borrow_then_return Sample.alice Sample.python_book Sample.day
              Sample.db0 _ ltac:(vm_compute; reflexivity))
    as (db2 & Hret & Hbook & _).
  exists db2. split; [vm_compute; reflexivity|]. split; [exact Hret|exact Hbook].
Defined.

(** ** The loan table over time *)

Lemma loan_kept_refl r : loan_kept r r.
Proof. split; [by repeat split|by left]. Qed.

Lemma loan_kept_trans r1 r2 r3 : loan_kept r1 r2 → loan_kept r2 r3 → loan_kept r1 r3.
Proof.
  intros [(? & ? & ? & ?) H12] [(? & ? & ? & ?) H23].
  split; [repeat split; congruence|].
  destruct H12 as [?|[? ?]], H23 as [?|[? ?]]; [left|right|right|]; try lia.
Qed.

Lemma perform_keeps_loans self c db id r :
  db_borrow db !! id = Some r →
  ∃ r', db_borrow (perform self c db).2 !! id = Some r' ∧ loan_kept r r'.
Proof.
  intros Hr.
  assert (∃ r', db_borrow db !! id = Some r' ∧ loan_kept r r') as Hsame
    by (exists r; split; [done|apply loan_kept_refl]).
  destruct c as [isbn today|borrow_id|v|v|cid|cid|]; simpl; try done.
  - destruct (borrow self isbn today db) as [[|e] db'] eqn:Hb; simpl.
    + apply borrow_Return in Hb as (_ & _ & _ & _ & _ & _ & ->). simpl.
      exists r. split; [|apply loan_kept_refl].
      rewrite lookup_insert_ne; [done|]. intros <-.
      by rewrite next_rowid_fresh in Hr.
    + by apply borrow_Raise in Hb as ->.
  - destruct (return_book self borrow_id db) as [[|e] db'] eqn:Hret; simpl.
    + apply return_book_Return in Hret
        as (br & (Hbr & _ & Hopen)%find_open_loan_Some & ->). simpl.
      rewrite lookup_alter. case_decide as Heq; [|done]. subst id.
      rewrite Hbr. simplify_eq. exists (with_returned 1 r).
      split; [done|]. split; [by repeat split|]. by right.
    + by apply return_book_Raise in Hret as (_ & -> & _).
  - unfold name_setter. by case_bool_decide.
  - unfold age_setter. by case_bool_decide.
  - by case_bool_decide.
  - by case_bool_decide.
Qed.

Lemma perform_seq_mono self c db : db_seq db ≤ db_seq (perform self c db).2.
Proof.
  destruct c as [isbn today|borrow_id|v|v|cid|cid|]; simpl; try done.
  - destruct (borrow self isbn today db) as [[|e] db'] eqn:Hb; simpl.
    + apply borrow_Return in Hb as (_ & _ & _ & _ & _ & _ & ->). simpl.
      pose proof (next_rowid_above_seq db). lia.
    + by apply borrow_Raise in Hb as ->.
  - destruct (return_book self borrow_id db) as [[|e] db'] eqn:Hret; simpl.
    + by apply return_book_Return in Hret as (br & _ & ->).
    + by apply return_book_Raise in Hret as (_ & -> & _).
  - unfold name_setter. by case_bool_decide.
  - unfold age_setter. by case_bool_decide.
  - by case_bool_decide.
  - by case_bool_decide.
Qed.

(** X4. The loan table is a ledger.  Whatever calls are made, a loan
    row once written is never deleted; its borrower, title and dates
    never change; its [returned] flag only ever goes from 0 to 1, so a
    closed loan stays closed; and the row-id counter never goes
    back. *)
Theorem loans_are_kept db db' :
  reachable db db' →
  (∀ id r, db_borrow db !! id = Some r →
     ∃ r', db_borrow db' !! id = Some r' ∧ loan_kept r r' ∧
           (br_returned r = 1 → r' = r)) ∧
  db_seq db ≤ db_seq db'.
Proof.
  intros Hreach.
  assert ((∀ id r, db_borrow db !! id = Some r →
             ∃ r', db_borrow db' !! id = Some r' ∧ loan_kept r r') ∧
          db_seq db ≤ db_seq db') as [Hkept Hseq].
  { revert db' Hreach. apply rtc_ind_r.
    - split; [|lia]. intros id r Hr. exists r. split; [done|apply loan_kept_refl].
    - intros d1 d2 _ Hstep [IH IHseq]. destruct Hstep as [s self c d1 _].
      split; [|pose proof (perform_seq_mono self c d1); lia].
      intros id r Hr. destruct (IH id r Hr) as (r1 & Hr1 & Hk1).
      destruct (perform_keeps_loans self c d1 id r1 Hr1) as (r2 & Hr2 & Hk2).
      exists r2. split; [done|]. by eapply loan_kept_trans. }
  split; [|done]. intros id r Hr. destruct (Hkept id r Hr) as (r' & Hr' & Hk).
  exists r'. split; [done|]. split; [done|]. intros Hclosed.
  destruct Hk as [(? & ? & ? & ?) Hflag]. destruct r, r'. simpl in *.
  f_equal; try done. lia.
Qed.

Lemma loans_are_kept_witness :
  reachable Sample.one_copy_left
            (run_calls [("S003", CallReturnBook 1)] Sample.one_copy_left) ∧
  ∃ r', db_borrow (run_calls [("S003", CallReturnBook 1)] Sample.one_copy_left)
          !! 1 = Some r' ∧
        br_uid r' = "S003" ∧ br_isbn r' = Sample.algorithms_book.
Proof.
  split; [apply run_calls_reachable|].
  destruct (proj1 (loans_are_kept Sample.one_copy_left _
                     (run_calls_reachable [("S003", CallReturnBook 1)] _))
              1 (mkBorrowRow "S003" Sample.algorithms_book Sample.day
                             (Sample.day + 90) 0))
    as (r' & Hr' & [(Hu & Hi & _) _] & _).
  - vm_compute. reflexivity.
  - exists r'. split; [exact Hr'|]. split; [exact Hu|exact Hi].
Defined.

Lemma loan_ok_perform s self c db :
  current_user db s = Some self →
  0 ≤ db_seq db →
  (∀ id r, db_borrow db !! id = Some r → loan_ok db id r) →
  ∀ id r, db_borrow (perform self c db).2 !! id = Some r →
          loan_ok (perform self c db).2 id r.
Proof.
  intros Hcur Hseq Hok.
  pose proof (current_user_uid _ _ _ Hcur) as Huid.
  destruct (current_user_role _ _ _ Hcur) as (row & Hrow & _).
  assert (∀ f u id r, loan_ok db id r →
            loan_ok (set_user (alter f u) db) id r) as Huser.
  { intros f u id r (? & ? & ? & ? & [x Hx] & ?).
    unfold loan_ok. split_and!; simpl; try done; try lia.
    rewrite lookup_alter. case_decide; subst; rewrite ?Hx; by eexists. }
  destruct c as [isbn today|borrow_id|v|v|cid|cid|]; simpl; try done.
  - destruct (borrow self isbn today db) as [[|e] db'] eqn:Hb; simpl.
    + apply borrow_Return in Hb as (book & Hbook & _ & _ & _ & Hd & ->).
      pose proof (next_rowid_above_seq db) as Hnext.
      assert (1 ≤ today + 90 ≤ date_max_ordinal) as Hrange.
      { unfold date_add in Hd. case_bool_decide; [lia|done]. }
      intros id r. simpl. intros Hr.
      apply lookup_insert_Some in Hr as [[<- <-]|[_ Hr]].
      * unfold loan_ok. split_and!; simpl; try done; try lia.
        -- rewrite Huid, Hrow. by eexists.
        -- rewrite lookup_alter_eq, Hbook. by eexists.
      * destruct (Hok id r Hr) as (? & ? & ? & ? & ? & [b Hb]).
        unfold loan_ok. split_and!; simpl; try done; try lia.
        rewrite lookup_alter. case_decide; subst; rewrite ?Hb; by eexists.
    + by apply borrow_Raise in Hb as ->.
  - destruct (return_book self borrow_id db) as [[|e] db'] eqn:Hret; simpl.
    + apply return_book_Return in Hret
        as (br & (Hbr & _ & Hopen)%find_open_loan_Some & ->).
      intros id r. simpl. intros Hr.
      assert (∃ r0, db_borrow db !! id = Some r0 ∧ same_but_returned r0 r ∧
                    (br_returned r = br_returned r0 ∨ br_returned r = 1))
        as (r0 & Hr0 & (Hu & Hi & Hbd & Hdd) & Hflag).
      { apply lookup_alter_Some in Hr as [(-> & r0 & Hr0 & ->)|[_ Hr]].
        - exists r0. split; [done|]. split; [by repeat split|by right].
        - exists r. split; [done|]. split; [by repeat split|by left]. }
      destruct (Hok id r0 Hr0) as (? & ? & ? & ? & ? & [b Hb]).
      unfold loan_ok. rewrite Hu, Hi, Hbd, Hdd.
      split_and!; simpl; try done; try lia.
      rewrite lookup_alter.
      case_decide as Heq; [rewrite Heq|]; rewrite Hb; by eexists.
    + by apply return_book_Raise in Hret as (_ & -> & _).
  - unfold name_setter. case_bool_decide; [done|]. simpl. intros id r Hr.
    by apply Huser, Hok.
  - unfold age_setter. case_bool_decide; [done|]. simpl. intros id r Hr.
    by apply Huser, Hok.
  - case_bool_decide; [|done]. simpl. intros id r Hr. by apply Hok.
  - case_bool_decide; [|done]. simpl. intros id r Hr. by apply Hok.
Qed.

Lemma loans_ok_reachable d0 db :
  db_borrow d0 = ∅ → 0 ≤ db_seq d0 → reachable d0 db →
  0 ≤ db_seq db ∧ ∀ id r, db_borrow db !! id = Some r → loan_ok db id r.
Proof.
  intros Hempty Hseq. revert db. apply rtc_ind_r.
  - split; [done|]. intros id r. by rewrite Hempty, lookup_empty.
  - intros d1 d2 _ Hstep [IHseq IH]. destruct Hstep as [s self c d1 Hcur].
    split; [pose proof (perform_seq_mono self c d1); lia|].
    by eapply loan_ok_perform.
Qed.

(** X5. SQLite does not enforce the foreign keys of [borrow] here, yet
    the code keeps them: in every state reached from an empty loan
    table every loan row names a registered person and a book of the
    catalog, is due exactly 90 days after its borrow date, has
    [returned] 0 or 1, and carries an id between 1 and the row-id
    counter; so the next loan gets the counter plus one. *)
Theorem loans_well_formed d0 db :
  initial d0 → 0 ≤ db_seq d0 → reachable d0 db →
  (∀ id r, db_borrow db !! id = Some r → loan_ok db id r) ∧
  next_rowid db = db_seq db + 1.
Proof.
  intros [Hempty _] Hseq Hreach.
  destruct (loans_ok_reachable _ _ Hempty Hseq Hreach) as [Hseq' Hok].
  split; [done|]. unfold next_rowid.
  assert (max_rowid (db_borrow db) ≤ db_seq db); [|lia].
  unfold max_rowid.
  apply (map_fold_weak_ind
           (λ acc (m : gmap Z BorrowRow),
              (∀ k r, m !! k = Some r → k ≤ db_seq db) → acc ≤ db_seq db)).
  - done.
  - intros i x m acc Hi IH Hall.
    assert (i ≤ db_seq db) as Hile.
    { apply (Hall i x). apply lookup_insert_eq. }
    assert (acc ≤ db_seq db); [|lia].
    apply IH. intros k r Hk. apply (Hall k r).
    rewrite lookup_insert_ne; [done|]. intros <-. by rewrite Hi in Hk.
  - intros k r Hk. destruct (Hok k r Hk) as (_ & _ & _ & ? & _). lia.
Qed.

Lemma loans_well_formed_witness :
  initial Sample.db0 ∧ 0 ≤ db_seq Sample.db0 ∧
  reachable Sample.db0 Sample.both_copies_out ∧
  next_rowid Sample.both_copies_out = db_seq Sample.both_copies_out + 1.
Proof.
  split; [apply init_db_initial|]. split; [done|].
  split; [apply run_calls_reachable|].
  apply (loans_well_formed Sample.db0 Sample.both_copies_out).
  - apply init_db_initial.
  - done.
  - apply run_calls_reachable.
Defined.

(** ** People and catalog over time *)

Lemma same_but_name_age_refl u : same_but_name_age u u.
Proof. by repeat split. Qed.

Lemma perform_people_catalog self c db :
  let db' := (perform self c db).2 in
  db_class db' = db_class db ∧ db_student db' = db_student db ∧
  (∀ u, option_Forall2 same_but_name_age (db_user db !! u) (db_user db' !! u)) ∧
  (∀ i, option_Forall2 same_but_remain (db_book db !! i) (db_book db' !! i)) ∧
  (profile_valid db → profile_valid db').
Proof.
  assert (∀ d : DB, ∀ u, option_Forall2 same_but_name_age
                           (db_user d !! u) (db_user d !! u)) as Hurefl.
  { intros d u. destruct (db_user d !! u); constructor.
    apply same_but_name_age_refl. }
  assert (∀ d : DB, ∀ i, option_Forall2 same_but_remain
                           (db_book d !! i) (db_book d !! i)) as Hbrefl.
  { intros d i. destruct (db_book d !! i); constructor. by repeat split. }
  destruct c as [isbn today|borrow_id|v|v|cid|cid|]; simpl; try done.
  - pose proof (borrow_frame self isbn today db) as ((Hu & Hc & Hs & _) & Hne & Heq & _).
    simpl in *. rewrite Hc, Hs. split; [done|]. split; [done|]. split; [|split].
    + intros u. rewrite Hu. apply Hurefl.
    + intros i. destruct (decide (i = isbn)) as [->|Hi]; [done|].
      rewrite (Hne i Hi). apply Hbrefl.
    + unfold profile_valid. by rewrite Hu.
  - pose proof (return_book_frame self borrow_id db)
      as ((Hu & Hc & Hs & _) & _ & _ & _ & Hbooks).
    simpl in *. rewrite Hc, Hs. split; [done|]. split; [done|]. split; [|split].
    + intros u. rewrite Hu. apply Hurefl.
    + intros i. destruct (db_borrow db !! borrow_id) as [br|].
      * destruct Hbooks as [Hne Heq].
        destruct (decide (i = br_isbn br)) as [->|Hi]; [done|].
        rewrite (Hne i Hi). apply Hbrefl.
      * rewrite Hbooks. apply Hbrefl.
    + unfold profile_valid. by rewrite Hu.
  - unfold name_setter. case_bool_decide as Hv; [by split_and!|]. simpl.
    split; [done|]. split; [done|]. split; [|split; [done|]].
    + intros u. rewrite lookup_alter. case_decide; [subst|apply Hurefl].
      destruct (db_user db !! uid self); constructor. by repeat split.
    + unfold profile_valid. simpl.
      intros Hvalid u row [(<- & r0 & Hr0 & ->)|[_ Hr]]%lookup_alter_Some.
      * split; [done|]. apply (Hvalid _ _ Hr0).
      * by apply (Hvalid u).
  - unfold age_setter. case_bool_decide as Hv; [by split_and!|]. simpl.
    split; [done|]. split; [done|]. split; [|split; [done|]].
    + intros u. rewrite lookup_alter. case_decide; [subst|apply Hurefl].
      destruct (db_user db !! uid self); constructor. by repeat split.
    + unfold profile_valid. simpl.
      intros Hvalid u row [(<- & r0 & Hr0 & ->)|[_ Hr]]%lookup_alter_Some.
      * split; [apply (Hvalid _ _ Hr0)|simpl; lia].
      * by apply (Hvalid u).
  - case_bool_decide; simpl; by split_and!.
  - case_bool_decide; simpl; by split_and!.
Qed.

(** X6. No call adds, removes or re-roles a person, adds or removes a
    book, or touches the class and roster tables: over any sequence of
    calls a person's row changes at most in name and age, a book's row
    at most in its remaining-copies count.  The two setters keep the
    profile valid: if every name was non-empty and every age positive
    at the start, they still are. *)
Theorem people_and_catalog_fixed d0 db :
  reachable d0 db →
  db_class db = db_class d0 ∧ db_student db = db_student d0 ∧
  (∀ u, option_Forall2 same_but_name_age (db_user d0 !! u) (db_user db !! u)) ∧
  (∀ i, option_Forall2 same_but_remain (db_book d0 !! i) (db_book db !! i)) ∧
  (profile_valid d0 → profile_valid db).
Proof.
  revert db. apply rtc_ind_r.
  - split; [done|]. split; [done|]. split; [|split; [|done]].
    + intros u. destruct (db_user d0 !! u); constructor. by repeat split.
    + intros i. destruct (db_book d0 !! i); constructor. by repeat split.
  - intros d1 d2 _ Hstep (Hc & Hs & Hu & Hb & Hv).
    destruct Hstep as [s self c d1 _].
    destruct (perform_people_catalog self c d1) as (Hc' & Hs' & Hu' & Hb' & Hv').
    rewrite Hc', Hs'. split; [done|]. split; [done|]. split; [|split].
    + intros u. specialize (Hu u). specialize (Hu' u).
      destruct Hu as [x y (? & ? & ? & ? & ?)|]; inversion Hu' as [? z (? & ? & ? & ? & ?)|];
        simplify_eq; constructor. repeat split; congruence.
    + intros i. specialize (Hb i). specialize (Hb' i).
      destruct Hb as [x y (? & ? & ? & ? & ?)|]; inversion Hb' as [? z (? & ? & ? & ? & ?)|];
        simplify_eq; constructor. repeat split; congruence.
    + auto.
Qed.

Lemma people_and_catalog_fixed_witness :
  reachable Sample.db0 Sample.both_copies_out ∧
  db_student Sample.both_copies_out = db_student Sample.db0.
Proof.
  split; [apply run_calls_reachable|].
  apply (people_and_catalog_fixed Sample.db0 Sample.both_copies_out).
  apply run_calls_reachable.
Defined.

(** ** The quota message *)

(** X7. When [borrow] refuses a logged-in person for quota, the count
    it reports is exactly the quota of that person's role: in a
    reachable state the open loans never exceed it. *)
Theorem out_of_quota_reports_limit d0 db s self isbn today n :
  initial d0 → reachable d0 db →
  current_user db s = Some self →
  (borrow self isbn today db).1 = Raise (OutOfQuota n) →
  n = quota self ∧ n = count_open_loans db (uid self) ∧
  message (OutOfQuota n)
  = "额度已满（教师 4 本/学生 2 本），当前已借 " +:+ pretty (quota self) +:+ " 本".
Proof.
  intros Hinit Hreach Hcur (_ & _ & Hq & ->)%borrow_OutOfQuota_iff.
  pose proof (Inv_reachable _ _ Hinit Hreach) as HI.
  pose proof (current_user_uid _ _ _ Hcur) as Huid.
  destruct (current_user_role _ _ _ Hcur) as (row & Hrow & Hrole).
  pose proof (inv_quota _ _ HI s row Hrow) as Hle.
  rewrite <- Hrole, <- quota_role, <- Huid in Hle.
  assert (count_open_loans db (uid self) = quota self) as -> by lia.
  done.
Qed.

Lemma out_of_quota_reports_limit_witness :
  (borrow Sample.alice Sample.algorithms_book Sample.day
          Sample.alice_two_loans).1 = Raise (OutOfQuota 2) ∧
  2 = quota Sample.alice.
Proof.
  assert ((borrow Sample.alice Sample.algorithms_book Sample.day
                  Sample.alice_two_loans).1 = Raise (OutOfQuota 2)) as H
    by (vm_compute; reflexivity).
  split; [exact H|].
  apply (out_of_quota_reports_limit Sample.db0 Sample.alice_two_loans "S001"
           Sample.alice Sample.algorithms_book Sample.day 2).
  - apply init_db_initial.
  - apply run_calls_reachable.
  - vm_compute. reflexivity.
  - exact H.
Defined.

(** ** A returned copy *)

(** X8. A copy that has just been returned can be lent again: in a
    reachable state, after a successful [return_book], a [borrow] of
    that loan's title by any person who holds no open loan of it and
    is below quota returns (the date being in range). *)
Theorem returned_copy_can_be_borrowed d0 db self borrow_id db' br other today :
  initial d0 → reachable d0 db →
  return_book self borrow_id db = (Return, db') →
  db_borrow db !! borrow_id = Some br →
  ¬ holds_open db' (uid other) (br_isbn br) →
  count_open_loans db' (uid other) < quota other →
  1 ≤ today + 90 ≤ date_max_ordinal →
  (borrow other (br_isbn br) today db').1 = Return.
Proof.
  intros Hinit Hreach Hret Hbr Hdup Hq Hd.
  pose proof (Inv_reachable _ _ Hinit Hreach) as HI.
  destruct (return_book_gives_one_copy _ _ _ _ _ HI Hret)
    as (br' & b & Hbr' & _ & _ & Hb & _ & Hbooks). simplify_eq.
  pose proof (inv_stock _ _ HI (br_isbn br)) as Hstock. rewrite Hb in Hstock.
  destruct (db_book d0 !! br_isbn br); [|done].
  rewrite borrow_Return_intro; try done.
  eapply in_stock_not_no_stock.
  - rewrite Hbooks. apply lookup_insert_eq.
  - simpl. lia.
Qed.

Lemma returned_copy_can_be_borrowed_witness :
  (borrow Sample.zhang Sample.algorithms_book Sample.day
          (return_book Sample.bob 2 Sample.both_copies_out).2).1 = Return.
Proof.
  apply (returned_copy_can_be_borrowed Sample.db0 Sample.both_copies_out
           Sample.bob 2 _
           (mkBorrowRow "S002" Sample.algorithms_book Sample.day (Sample.day + 90) 0)
           Sample.zhang Sample.day).
  - apply init_db_initial.
  - apply run_calls_reachable.
  - vm_compute. reflexivity.
  - vm_compute. reflexivity.
  - intros (id & r & Hr & Hu & _).
    assert (bool_decide (map_Forall (λ _ r, br_uid r ≠ "T001")
              (db_borrow (return_book Sample.bob 2 Sample.both_copies_out).2))
            = true) as Hall by (vm_compute; reflexivity).
    apply bool_decide_eq_true in Hall. by apply (Hall id r Hr).
  - vm_compute. reflexivity.
  - vm_compute. split; discriminate.
Defined.

(** ** Dissociating a class *)

(** X9. [remove_class] undoes [add_class] and nothing else: after
    adding and then removing a pair the pair is absent and every other
    association is as before, so for a pair that was absent the table
    is exactly what it was; removing twice is removing once; removing
    an absent pair changes nothing; and adding after removing leaves
    the pair present. *)
Theorem remove_class_add_class self class_id db :
  let added := (add_class self class_id db).2 in
  let removed := (remove_class self class_id db).2 in
  ((uid self, class_id) ∉ db_teacher_class (remove_class self class_id added).2) ∧
  (∀ p, p ≠ (uid self, class_id) →
        p ∈ db_teacher_class (remove_class self class_id added).2 ↔
        p ∈ db_teacher_class db) ∧
  ((uid self, class_id) ∉ db_teacher_class db →
     (remove_class self class_id added).2 = db ∧ removed = db) ∧
  (remove_class self class_id removed).2 = removed ∧
  (uid self, class_id) ∈ db_teacher_class (add_class self class_id removed).2 ∧
  (add_class self class_id removed).2 = added.
Proof.
  unfold add_class, remove_class, set_teacher_class. simpl.
  split; [set_solver|]. split; [set_solver|]. split; [|split; [|split]].
  - intros Hnot. destruct db as [us cs ss tc bs ls n]. simpl in *.
    split; do 2 f_equal; set_solver.
  - f_equal. set_solver.
  - set_solver.
  - f_equal. apply set_eq. intros p.
    destruct (decide (p = (uid self, class_id))); set_solver.
Qed.

(** * The routes of [app.py] *)

(** ** Logging in *)

Lemma borrow_ext self other isbn today db :
  uid self = uid other → quota self = quota other →
  borrow self isbn today db = borrow other isbn today db.
Proof. intros Hu Hq. unfold borrow. by rewrite Hu, Hq. Qed.

Lemma return_book_ext self other borrow_id db :
  uid self = uid other →
  return_book self borrow_id db = return_book other borrow_id db.
Proof. intros Hu. unfold return_book. by rewrite Hu. Qed.

(** X10. [login] fails only with [AuthFail], and only for an unknown
    id or a password the hash rejects.  When it succeeds for a
    non-empty id, the object it builds and the object that
    [current_user] builds for that id on later requests stand for the
    same person: same id, same profile, same quota, teacher class for
    the same rows, and [borrow] and [return_book] behave alike on
    both. *)
Theorem login_matches_current_user check u pwd db :
  (∀ e, login check u pwd db = inl e →
        e = AuthFail ∧
        (db_user db !! u = None ∨
         ∃ row, db_user db !! u = Some row ∧ check (u_password row) pwd = false)) ∧
  (∀ user, login check u pwd db = inr user → u ≠ "" →
     ∃ row cur,
       db_user db !! u = Some row ∧ check (u_password row) pwd = true ∧
       current_user db u = Some cur ∧
       uid user = u ∧ uid cur = u ∧
       _name cur = _name user ∧ _age cur = _age user ∧ sex cur = sex user ∧
       college cur = college user ∧ _pwd_hash cur = _pwd_hash user ∧
       quota cur = quota user ∧ quota user = quota_of_role (u_role row) ∧
       (cls user = ClsTeacher ↔ u_role row = "TEA") ∧
       (cls cur = ClsTeacher ↔ u_role row = "TEA") ∧
       (∀ isbn today d, borrow cur isbn today d = borrow user isbn today d) ∧
       (∀ borrow_id d, return_book cur borrow_id d = return_book user borrow_id d)).
Proof.
  unfold login, current_user. split.
  - intros e. destruct (db_user db !! u) as [row|]; [|intros [= <-]; auto].
    destruct (check (u_password row) pwd) eqn:Hc; simpl.
    + by case_bool_decide.
    + intros [= <-]. split; [done|]. right. eauto.
  - intros user Hlogin Hu. rewrite bool_decide_eq_false_2 by done.
    destruct (db_user db !! u) as [row|]; [|done].
    destruct (check (u_password row) pwd) eqn:Hc; simpl in Hlogin; [|done].
    exists row. eexists. split; [done|]. split; [done|]. split; [done|].
    unfold quota_of_role.
    case_bool_decide as Hrole; simplify_eq; simpl.
    + unfold quota. simpl. rewrite Hrole. simpl.
      split_and!; try done; intros; by apply borrow_ext.
    + unfold quota. simpl. rewrite !bool_decide_eq_false_2 by done.
      split_and!; try done. intros. apply borrow_ext; [done|].
      unfold quota. simpl. by rewrite bool_decide_eq_false_2.
Qed.

Lemma login_matches_current_user_witness :
  ∃ user, login Demo.check_password_hash "T001" "123456" Sample.db0 = inr user ∧
          quota user = 4 ∧ cls user = ClsTeacher.
Proof.
  exists (mkUser ClsTeacher "T001" "张老师" "女" 40 "数学学院"
                 (Sample.hash "123456") "TEA" (Some 2010)).
  assert (login Demo.check_password_hash "T001" "123456" Sample.db0
          = inr (mkUser ClsTeacher "T001" "张老师" "女" 40 "数学学院"
                        (Sample.hash "123456") "TEA" (Some 2010))) as Hl
    by (vm_compute; reflexivity).
  split; [exact Hl|].
  destruct (proj2 (login_matches_current_user Demo.check_password_hash
                     "T001" "123456" Sample.db0) _ Hl)
    as (row & cur & Hrow & _ & _ & _ & _ & _ & _ & _ & _ & _ & _ & Hq & Hcls & _).
  { discriminate. }
  assert (u_role row = "TEA") as Hrole.
  { vm_compute in Hrow. by injection Hrow as <-. }
  split; [by rewrite Hq, Hrole|by apply Hcls].
Defined.

(** ** Requests and calls *)

Lemma session_user_Some db s user s' :
  session_user db s = (Some user, s') →
  s' = s ∧ ∃ su, s_uid s = Some su ∧ current_user db su = Some user.
Proof.
  unfold session_user. destruct (s_uid s) as [su|]; [|done].
  destruct (current_user db su) as [cur|] eqn:Hcur; [|done].
  intros [= <- <-]. eauto.
Qed.

Lemma session_user_None db s s' :
  session_user db s = (None, s') →
  (s' = s ∨ s' = session_clear) ∧
  ∀ su, s_uid s = Some su → current_user db su = None.
Proof.
  unfold session_user. destruct (s_uid s) as [su|].
  - destruct (current_user db su) as [cur|] eqn:Hcur; [done|].
    intros [= <-]. split; [case_bool_decide; auto|]. by intros ? [= <-].
  - intros [= <-]. split; [by left|done].
Qed.


Lemma calls_by_refl s db : calls_by s db db.
Proof. unfold calls_by. destruct (s_uid s); [apply rtc_refl|done]. Qed.

Lemma calls_by_once s su self c db :
  s_uid s = Some su → current_user db su = Some self →
  calls_by s db (perform self c db).2.
Proof.
  intros Hs Hcur. unfold calls_by. rewrite Hs. apply rtc_once. by constructor.
Qed.

Lemma calls_by_trans s d1 d2 d3 : calls_by s d1 d2 → calls_by s d2 d3 → calls_by s d1 d3.
Proof.
  unfold calls_by. destruct (s_uid s).
  - intros H12 H23. by etrans.
  - by intros -> ->.
Qed.


Lemma user_update_calls strip int form_name form_age s db :
  calls_by s db (rp_db (App.user_update strip int form_name form_age s db)).
Proof.
  unfold App.user_update.
  destruct (session_user db s) as [[user|] s'] eqn:Hs; [|apply calls_by_refl].
  apply session_user_Some in Hs as (-> & su & Hsu & Hcur).
  pose proof (current_user_uid _ _ _ Hcur) as Huid.
  (* after the name half *)
  assert (∃ fl1 user1 d1,
            (if bool_decide (strip form_name = "") then ([], user, db)
             else match name_setter user (strip form_name) db with
                  | (Return, u, d) => (["姓名已更新"], u, d)
                  | (Raise _, u, d) => (["姓名不能为空"], u, d)
                  end) = (fl1, user1, d1) ∧
            uid user1 = su ∧ calls_by s db d1 ∧ is_Some (current_user d1 su))
    as (fl1 & user1 & d1 & -> & Hu1 & Hd1 & [cur1 Hcur1]).
  { case_bool_decide as Hn.
    - eexists _, _, _. split; [done|]. split; [done|].
      split; [apply calls_by_refl|by eexists].
    - pose proof (calls_by_once s su user (CallSetName (strip form_name)) db
                    Hsu Hcur) as Hstep.
      simpl in Hstep. unfold name_setter in *.
      rewrite bool_decide_eq_false_2 in * by done. simpl in *.
      eexists _, _, _. split; [done|]. split; [exact Huid|]. split; [done|].
      rewrite Huid. unfold current_user in *. simpl.
      case_bool_decide; [done|]. rewrite lookup_alter_eq.
      destruct (db_user db !! su) eqn:Hrow; [|done]. simpl. by eexists. }
  (* the age half *)
  case_bool_decide; simpl; [done|].
  destruct (int (strip form_age)) as [n|]; simpl; [|done].
  pose proof (calls_by_once s su cur1 (CallSetAge n) d1 Hsu Hcur1) as Hs2.
  simpl in Hs2. unfold age_setter in *.
  rewrite (current_user_uid _ _ _ Hcur1) in Hs2. rewrite Hu1.
  case_bool_decide; simpl in *; [done|]. by eapply calls_by_trans.
Qed.

Lemma borrow_route_calls form_isbn today s db :
  calls_by s db (rp_db (App.borrow form_isbn today s db)).
Proof.
  unfold App.borrow.
  destruct (session_user db s) as [[user|] s'] eqn:Hs; [|apply calls_by_refl].
  apply session_user_Some in Hs as (-> & su & Hsu & Hcur).
  pose proof (calls_by_once s su user (CallBorrow form_isbn today) db Hsu Hcur)
    as Hstep.
  simpl in Hstep.
  destruct (borrow user form_isbn today db) as [[|e] d]; simpl in *; [done|].
  by destruct (is_LibException e).
Qed.

Lemma return_book_route_calls borrow_id s db :
  calls_by s db (rp_db (App.return_book borrow_id s db)).
Proof.
  unfold App.return_book.
  destruct (session_user db s) as [[user|] s'] eqn:Hs; [|apply calls_by_refl].
  apply session_user_Some in Hs as (-> & su & Hsu & Hcur).
  pose proof (calls_by_once s su user (CallReturnBook borrow_id) db Hsu Hcur)
    as Hstep.
  simpl in Hstep.
  destruct (return_book user borrow_id db) as [[|e] d]; simpl in *; [done|].
  by destruct (is_LibException e).
Qed.

Lemma class_add_calls strip form_class_id s db :
  calls_by s db (rp_db (App.class_add strip form_class_id s db)).
Proof.
  unfold App.class_add. case_bool_decide; [apply calls_by_refl|].
  destruct (session_user db s) as [[user|] s'] eqn:Hs; [|apply calls_by_refl].
  apply session_user_Some in Hs as (-> & su & Hsu & Hcur).
  case_bool_decide; simpl; [apply calls_by_refl|].
  case_bool_decide as Hc; simpl; [|apply calls_by_refl].
  pose proof (calls_by_once s su user (CallAddClass (strip form_class_id)) db
                Hsu Hcur) as Hstep.
  simpl in Hstep. by rewrite bool_decide_eq_true_2 in Hstep.
Qed.

Lemma class_remove_calls strip form_class_id s db :
  calls_by s db (rp_db (App.class_remove strip form_class_id s db)).
Proof.
  unfold App.class_remove. case_bool_decide; [apply calls_by_refl|].
  destruct (session_user db s) as [[user|] s'] eqn:Hs; [|apply calls_by_refl].
  apply session_user_Some in Hs as (-> & su & Hsu & Hcur).
  case_bool_decide; simpl; [apply calls_by_refl|].
  case_bool_decide as Hc; simpl; [|apply calls_by_refl].
  pose proof (calls_by_once s su user (CallRemoveClass (strip form_class_id)) db
                Hsu Hcur) as Hstep.
  simpl in Hstep. by rewrite bool_decide_eq_true_2 in Hstep.
Qed.

(** The routes that only read. *)
Lemma read_only_routes s db :
  rp_db (App.logout s db) = db ∧
  rp_db (App.book_query s db) = db ∧
  (∀ c, rp_db (App.book_by_cat c s db) = db) ∧
  rp_db (App.my_borrow s db) = db ∧
  rp_db (App.list_class s db) = db ∧
  rp_db (App.teacher_class_borrow s db) = db ∧
  (∀ c, rp_db (App.teacher_class_students c s db) = db) ∧
  (∀ c u, rp_db (App.teacher_student_borrow c u s db) = db).
Proof.
  unfold App.logout, App.book_query, App.book_by_cat, App.my_borrow,
    App.list_class, App.teacher_class_borrow, App.teacher_class_students,
    App.teacher_student_borrow.
  split_and!; intros; repeat case_match; done.
Qed.

Lemma login_route_db check form_uid form_pwd s db :
  rp_db (App.login check form_uid form_pwd s db) = db.
Proof. unfold App.login. by case_match. Qed.

Lemma handle_calls check strip int r s db :
  calls_by s db (handle check strip int r s db).2.
Proof.
  destruct (read_only_routes s db) as (H1 & H2 & H3 & H4 & H5 & H6 & H7 & H8).
  destruct r; simpl; rewrite ?login_route_db, ?H1, ?H2, ?H3, ?H4, ?H5, ?H6,
    ?H7, ?H8; try apply calls_by_refl.
  - apply user_update_calls.
  - apply borrow_route_calls.
  - apply return_book_route_calls.
  - apply class_add_calls.
  - apply class_remove_calls.
Qed.





(** ** What a request cannot touch *)

Lemma others_untouched_refl t db : others_untouched t db db.
Proof. by split_and!. Qed.

Lemma others_untouched_trans t d1 d2 d3 :
  others_untouched t d1 d2 → others_untouched t d2 d3 → others_untouched t d1 d3.
Proof.
  intros (Hu & Hl & Hp & Hc & Hs) (Hu' & Hl' & Hp' & Hc' & Hs').
  split_and!.
  - intros u Hne. by rewrite Hu', Hu.
  - intros id row Hne. by rewrite Hl', Hl.
  - intros p Hne. by rewrite Hp', Hp.
  - by rewrite Hc'.
  - by rewrite Hs'.
Qed.

Lemma perform_others_untouched self c db :
  others_untouched (uid self) db (perform self c db).2.
Proof.
  destruct c as [isbn today|borrow_id|v|v|cid|cid|]; simpl;
    try apply others_untouched_refl.
  - destruct (borrow self isbn today db) as [[|e] db'] eqn:Hb; simpl.
    + apply borrow_Return in Hb as (_ & _ & _ & _ & _ & _ & ->).
      split_and!; try done. intros id row Hne. simpl.
      rewrite lookup_insert_Some. split.
      * intros [[_ <-]|[_ ?]]; [by destruct Hne|done].
      * intros Hrow. right. split; [|done]. intros <-.
        by rewrite next_rowid_fresh in Hrow.
    + apply borrow_Raise in Hb as ->. apply others_untouched_refl.
  - destruct (return_book self borrow_id db) as [[|e] db'] eqn:Hret; simpl.
    + apply return_book_Return in Hret
        as (br & (Hbr & Hown & _)%find_open_loan_Some & ->).
      split_and!; try done. intros id row Hne. simpl.
      rewrite lookup_alter. case_decide as Hid; [|done]. subst id.
      rewrite Hbr. simpl. split; intros [= <-]; by destruct Hne.
    + apply return_book_Raise in Hret as (_ & -> & _).
      apply others_untouched_refl.
  - unfold name_setter. case_bool_decide; [apply others_untouched_refl|].
    split_and!; try done. intros u Hne. simpl. by rewrite lookup_alter_ne.
  - unfold age_setter. case_bool_decide; [apply others_untouched_refl|].
    split_and!; try done. intros u Hne. simpl. by rewrite lookup_alter_ne.
  - case_bool_decide; [|apply others_untouched_refl].
    split_and!; try done. intros [a b] Hne. simpl in *. set_solver.
  - case_bool_decide; [|apply others_untouched_refl].
    split_and!; try done. intros [a b] Hne. simpl in *. set_solver.
Qed.

Lemma calls_by_others_untouched s t db db' :
  s_uid s = Some t → calls_by s db db' → others_untouched t db db'.
Proof.
  unfold calls_by. intros ->. intros Hrtc.
  induction Hrtc as [|d1 d2 d3 Hstep _ IH]; [apply others_untouched_refl|].
  eapply others_untouched_trans; [|exact IH].
  destruct Hstep as [self c d Hcur].
  rewrite <- (current_user_uid _ _ _ Hcur). apply perform_others_untouched.
Qed.

(** X12. A request acts for the person of its session and for nobody
    else.  Without a session, or with the id of nobody, it changes
    nothing at all.  With the id [t], whatever the route and the form
    data: every other person's row, every other person's loans (none
    is added, changed or removed) and every other teacher's class
    associations are as before, and so are the class and roster
    tables.  Only stock counts are shared. *)
Theorem requests_touch_own_rows check strip int r s db :
  let db' := (handle check strip int r s db).2 in
  (s_uid s = None → db' = db) ∧
  (∀ t, s_uid s = Some t → current_user db t = None → db' = db) ∧
  (∀ t, s_uid s = Some t → others_untouched t db db').
Proof.
  pose proof (handle_calls check strip int r s db) as Hcalls.
  split_and!.
  - intros Hs. unfold calls_by in Hcalls. by rewrite Hs in Hcalls.
  - intros t Hs Hnone. unfold calls_by in Hcalls. rewrite Hs in Hcalls.
    destruct Hcalls as [|d1 d2 d3 Hstep _]; [done|].
    destruct Hstep as [self c d Hcur]. congruence.
  - intros t Hs. by eapply calls_by_others_untouched.
Qed.

(** ** The teacher routes *)

Lemma session_user_is_Some db s :
  (∃ user, session_user db s = (Some user, s)) ↔
  ∃ t, s_uid s = Some t ∧ is_Some (current_user db t).
Proof.
  unfold session_user. destruct (s_uid s) as [t|].
  - destruct (current_user db t) as [u|] eqn:Hcur.
    + split; [intros _; exists t; split; [done|]; by rewrite Hcur|eauto].
    + split; [by intros [? ?]|]. intros (? & [= <-] & [? Hu]).
      by rewrite Hcur in Hu.
  - split; [by intros [? ?]|by intros (? & ? & ?)].
Qed.

Lemma is_related_true db t c :
  is_related db t c = true ↔ (t, c) ∈ db_teacher_class db.
Proof. unfold is_related. apply bool_decide_eq_true. Qed.

Lemma is_in_class_true db u c :
  is_in_class db u c = true ↔ db_student db !! u = Some c.
Proof. unfold is_in_class. apply bool_decide_eq_true. Qed.

Lemma session_user_eq db s t user :
  s_uid s = Some t → current_user db t = Some user →
  session_user db s = (Some user, s).
Proof. intros Ht Hcur. unfold session_user. by rewrite Ht, Hcur. Qed.

Lemma teacher_class_students_cases class_id s db :
  (may_see_class db s class_id ∧
   ∃ args, App.teacher_class_students class_id s db = mkReply [] (Render args) s db) ∨
  (¬ may_see_class db s class_id ∧
   ∃ fl url s', App.teacher_class_students class_id s db
                = mkReply fl (Redirect url) s' db).
Proof.
  unfold App.teacher_class_students, may_see_class.
  case_bool_decide as Hrole.
  { right. split; [by intros [? _]|eauto]. }
  assert (s_role s = Some "TEA") as Hrole'
    by (destruct (decide (s_role s = Some "TEA")); [done|by destruct Hrole]).
  destruct (session_user db s) as [[user|] s'] eqn:Hs.
  - apply session_user_Some in Hs as (-> & su & Hsu & Hcur).
    rewrite (current_user_uid _ _ _ Hcur).
    destruct (is_related db su class_id) eqn:Hrel; simpl.
    + left. apply is_related_true in Hrel. split; [|eauto].
      split; [done|]. exists su. by rewrite Hcur.
    + right. split; [|eauto]. intros (_ & t & Ht & _ & Hin).
      apply is_related_true in Hin. congruence.
  - right. apply session_user_None in Hs as [_ Hnone]. split; [|eauto].
    intros (_ & t & Ht & [u Hu] & _). by rewrite (Hnone t Ht) in Hu.
Qed.

Lemma teacher_student_borrow_cases class_id student_uid s db :
  (may_see_class db s class_id ∧ db_student db !! student_uid = Some class_id ∧
   ∃ args, App.teacher_student_borrow class_id student_uid s db
           = mkReply [] (Render args) s db) ∨
  (¬ (may_see_class db s class_id ∧
      db_student db !! student_uid = Some class_id) ∧
   ∃ fl url s', App.teacher_student_borrow class_id student_uid s db
                = mkReply fl (Redirect url) s' db).
Proof.
  unfold App.teacher_student_borrow, may_see_class.
  case_bool_decide as Hrole.
  { right. split; [by intros [[? _] _]|eauto]. }
  assert (s_role s = Some "TEA") as Hrole'
    by (destruct (decide (s_role s = Some "TEA")); [done|by destruct Hrole]).
  destruct (session_user db s) as [[user|] s'] eqn:Hs.
  - apply session_user_Some in Hs as (-> & su & Hsu & Hcur).
    rewrite (current_user_uid _ _ _ Hcur).
    destruct (is_related db su class_id) eqn:Hrel; simpl.
    + apply is_related_true in Hrel.
      destruct (is_in_class db student_uid class_id) eqn:Hin; simpl.
      * left. apply is_in_class_true in Hin. split; [|eauto].
        split; [done|]. exists su. by rewrite Hcur.
      * right. split; [|eauto]. intros [_ Hx].
        apply is_in_class_true in Hx. congruence.
    + right. split; [|eauto]. intros [(_ & t & Ht & _ & Hin) _].
      apply is_related_true in Hin. congruence.
  - right. apply session_user_None in Hs as [_ Hnone]. split; [|eauto].
    intros [(_ & t & Ht & [u Hu] & _) _]. by rewrite (Hnone t Ht) in Hu.
Qed.

(** X13. The class pages open only for the right teacher.  The roster
    of a class is rendered exactly when the session carries the role
    [TEA], names an existing person, and that person is associated
    with the class; a student's loans are rendered exactly when, in
    addition, the student's roster entry is that class.  A teacher who
    is not associated is sent back with "no right to see this class",
    and an associated teacher asking for a student of another class is
    sent back to the class page. *)
Theorem teacher_gate class_id student_uid s db :
  ((∃ args, rp_resp (App.teacher_class_students class_id s db) = Render args) ↔
   s_role s = Some "TEA" ∧
   ∃ t, s_uid s = Some t ∧ is_Some (current_user db t) ∧
        (t, class_id) ∈ db_teacher_class db) ∧
  ((∃ args, rp_resp (App.teacher_student_borrow class_id student_uid s db)
            = Render args) ↔
   s_role s = Some "TEA" ∧
   ∃ t, s_uid s = Some t ∧ is_Some (current_user db t) ∧
        (t, class_id) ∈ db_teacher_class db ∧
        db_student db !! student_uid = Some class_id) ∧
  (∀ t, s_role s = Some "TEA" → s_uid s = Some t →
        is_Some (current_user db t) →
        (t, class_id) ∉ db_teacher_class db →
        App.teacher_class_students class_id s db
        = mkReply ["无权查看该班级"] (Redirect "/teacher/class_borrow") s db ∧
        App.teacher_student_borrow class_id student_uid s db
        = mkReply ["无权查看该班级"] (Redirect "/teacher/class_borrow") s db) ∧
  (∀ t, s_role s = Some "TEA" → s_uid s = Some t →
        is_Some (current_user db t) →
        (t, class_id) ∈ db_teacher_class db →
        db_student db !! student_uid ≠ Some class_id →
        App.teacher_student_borrow class_id student_uid s db
        = mkReply ["学生不在该班级"]
                  (Redirect ("/teacher/class_borrow/" +:+ class_id)) s db).
Proof.
  split_and!.
  - destruct (teacher_class_students_cases class_id s db)
      as [[Hok [args ->]]|[Hno (fl & url & s' & ->)]]; simpl.
    + split; [by intros _|eauto].
    + split; [by intros [? ?]|by intros ?].
  - destruct (teacher_student_borrow_cases class_id student_uid s db)
      as [([Hr (t & Ht & Hu & Hin)] & Hst & [args ->])
         |[Hno (fl & url & s' & ->)]]; simpl.
    + split; [intros _; split; [done|]; by exists t|eauto].
    + split; [by intros [? ?]|]. intros (Hr & t & Ht & Hu & Hin & Hst).
      destruct Hno. split; [|done]. split; [done|]. by exists t.
  - intros t Hrole Ht [user Hcur] Hnot.
    pose proof (current_user_uid _ _ _ Hcur) as Huid.
    assert (is_related db t class_id = false) as Hrel.
    { destruct (is_related db t class_id) eqn:Hx; [|done].
      by apply is_related_true in Hx. }
    unfold App.teacher_class_students, App.teacher_student_borrow.
    rewrite !bool_decide_eq_false_2 by (by intros ?).
    rewrite (session_user_eq _ _ _ _ Ht Hcur), Huid, Hrel. done.
  - intros t Hrole Ht [user Hcur] Hin Hnot.
    pose proof (current_user_uid _ _ _ Hcur) as Huid.
    apply is_related_true in Hin.
    assert (is_in_class db student_uid class_id = false) as Hcls.
    { destruct (is_in_class db student_uid class_id) eqn:Hx; [|done].
      by apply is_in_class_true in Hx. }
    unfold App.teacher_student_borrow.
    rewrite !bool_decide_eq_false_2 by (by intros ?).
    rewrite (session_user_eq _ _ _ _ Ht Hcur), Huid, Hin, Hcls. done.
Qed.

Lemma current_user_cls db t user :
  current_user db t = Some user → (cls user = ClsTeacher ↔ role user = "TEA").
Proof.
  unfold current_user. case_bool_decide; [done|].
  destruct (db_user db !! t) as [row|]; [|done]. intros [= <-]. simpl.
  by case_bool_decide.
Qed.

Lemma current_user_teacher_class db db' t :
  db_user db' = db_user db → current_user db' t = current_user db t.
Proof. intros Hu. unfold current_user. by rewrite Hu. Qed.

(** X14. Associating through [/class/add] opens the class pages of
    that class to the teacher, and dissociating through
    [/class/remove] closes them again: after the first the roster
    route renders, after the second it answers "no right to see this
    class".  Neither route asks whether the class exists. *)
Theorem class_add_grants_class_remove_revokes strip form class_id s db t user :
  s_role s = Some "TEA" → s_uid s = Some t →
  current_user db t = Some user → role user = "TEA" →
  strip form = class_id → class_id ≠ "" →
  let added := App.class_add strip form s db in
  let removed := App.class_remove strip form s db in
  added = mkReply ["已关联班级 " +:+ class_id] (Redirect "/class") s
                  (add_class user class_id db).2 ∧
  removed = mkReply ["已取消关联 " +:+ class_id] (Redirect "/class") s
                    (remove_class user class_id db).2 ∧
  (∃ args, App.teacher_class_students class_id s (rp_db added)
           = mkReply [] (Render args) s (rp_db added)) ∧
  App.teacher_class_students class_id s (rp_db removed)
  = mkReply ["无权查看该班级"] (Redirect "/teacher/class_borrow") s (rp_db removed).
Proof.
  intros Hrole Ht Hcur Htea Hstrip Hne.
  pose proof (current_user_uid _ _ _ Hcur) as Huid.
  pose proof (proj2 (current_user_cls _ _ _ Hcur) Htea) as Hcls.
  assert (App.class_add strip form s db
          = mkReply ["已关联班级 " +:+ class_id] (Redirect "/class") s
                    (add_class user class_id db).2) as Hadd.
  { unfold App.class_add. rewrite bool_decide_eq_false_2 by (by intros ?).
    rewrite (session_user_eq _ _ _ _ Ht Hcur), Hstrip.
    rewrite bool_decide_eq_false_2 by done. by rewrite bool_decide_eq_true_2. }
  assert (App.class_remove strip form s db
          = mkReply ["已取消关联 " +:+ class_id] (Redirect "/class") s
                    (remove_class user class_id db).2) as Hrem.
  { unfold App.class_remove. rewrite bool_decide_eq_false_2 by (by intros ?).
    rewrite (session_user_eq _ _ _ _ Ht Hcur), Hstrip.
    rewrite bool_decide_eq_false_2 by done. by rewrite bool_decide_eq_true_2. }
  simpl. rewrite Hadd, Hrem. simpl. split; [done|]. split; [done|]. split.
  - unfold App.teacher_class_students.
    rewrite bool_decide_eq_false_2 by (by intros ?).
    assert (current_user (set_teacher_class
              (λ s0, {[(uid user, class_id)]} ∪ s0) db) t = Some user) as Hcur'
      by (by rewrite (current_user_teacher_class db)).
    rewrite (session_user_eq _ _ _ _ Ht Hcur').
    assert (is_related (set_teacher_class
              (λ s0, {[(uid user, class_id)]} ∪ s0) db) (uid user) class_id
            = true) as -> by (apply is_related_true; simpl; set_solver).
    simpl. eauto.
  - unfold App.teacher_class_students.
    rewrite bool_decide_eq_false_2 by (by intros ?).
    assert (current_user (set_teacher_class
              (λ s0, s0 ∖ {[(uid user, class_id)]}) db) t = Some user) as Hcur'
      by (by rewrite (current_user_teacher_class db)).
    rewrite (session_user_eq _ _ _ _ Ht Hcur').
    assert (is_related (set_teacher_class
              (λ s0, s0 ∖ {[(uid user, class_id)]}) db) (uid user) class_id
            = false) as ->; [|done].
    destruct (is_related _ (uid user) class_id) eqn:Hx; [|done].
    apply is_related_true in Hx. simpl in Hx. set_solver.
Qed.

Lemma class_add_grants_class_remove_revokes_witness :
  ∃ args,
    App.teacher_class_students "C001" Demo.li_session
      (rp_db (App.class_add id "C001" Demo.li_session Sample.db0))
    = mkReply [] (Render args) Demo.li_session
              (rp_db (App.class_add id "C001" Demo.li_session Sample.db0)).
Proof.
  apply (class_add_grants_class_remove_revokes id "C001" "C001" Demo.li_session
           Sample.db0 "T002"
           (mkUser ClsTeacher "T002" "李老师" "男" 38 "数学学院"
                   (Sample.hash "123456") "TEA" (Some 2015))).
  - reflexivity.
  - reflexivity.
  - vm_compute. reflexivity.
  - reflexivity.
  - reflexivity.
  - discriminate.
Defined.

(** ** The class list *)

Lemma all_class_ids_elem db c : c ∈ all_class_ids db ↔ is_Some (db_class db !! c).
Proof.
  unfold all_class_ids. rewrite list_elem_of_fmap. split.
  - intros ([c' n] & -> & Hin). apply elem_of_map_to_list in Hin. by eexists.
  - intros [n Hn]. exists (c, n). split; [done|]. by apply elem_of_map_to_list.
Qed.

Lemma all_class_ids_NoDup db : NoDup (all_class_ids db).
Proof. apply NoDup_fst_map_to_list. Qed.

(** X15. On the class page the two lists split the class table: every
    class is listed once, as related when the teacher is associated
    with it and as unused otherwise.  An association with an id that
    is not in the class table, which [/class/add] accepts, shows in
    neither list. *)
Theorem list_class_partition s db t user :
  s_role s = Some "TEA" → s_uid s = Some t → current_user db t = Some user →
  ∃ related unused,
    App.list_class s db = mkReply [] (Render (related, unused)) s db ∧
    NoDup related ∧ NoDup unused ∧
    (∀ c, c ∈ related ↔
          is_Some (db_class db !! c) ∧ (t, c) ∈ db_teacher_class db) ∧
    (∀ c, c ∈ unused ↔
          is_Some (db_class db !! c) ∧ (t, c) ∉ db_teacher_class db) ∧
    (∀ c, is_Some (db_class db !! c) → c ∈ related ∨ c ∈ unused) ∧
    (∀ c, ¬ (c ∈ related ∧ c ∈ unused)) ∧
    (∀ c, db_class db !! c = None → (c ∉ related) ∧ (c ∉ unused)).
Proof.
  intros Hrole Ht Hcur. pose proof (current_user_uid _ _ _ Hcur) as Huid.
  unfold App.list_class. rewrite bool_decide_eq_false_2 by (by intros ?).
  rewrite (session_user_eq _ _ _ _ Ht Hcur), Huid.
  eexists _, _. split; [done|].
  assert (∀ c, c ∈ related_class_ids db t ↔
               is_Some (db_class db !! c) ∧ (t, c) ∈ db_teacher_class db) as Hrel.
  { intros c. unfold related_class_ids.
    rewrite list_elem_of_filter, all_class_ids_elem. naive_solver. }
  assert (∀ c, c ∈ filter (λ c, c ∉ related_class_ids db t) (all_class_ids db) ↔
               is_Some (db_class db !! c) ∧ (t, c) ∉ db_teacher_class db) as Hun.
  { intros c. rewrite list_elem_of_filter, all_class_ids_elem, Hrel. naive_solver. }
  split_and!.
  - apply NoDup_filter, all_class_ids_NoDup.
  - apply NoDup_filter, all_class_ids_NoDup.
  - done.
  - done.
  - intros c Hc. rewrite Hrel, Hun.
    destruct (decide ((t, c) ∈ db_teacher_class db)); auto.
  - intros c. rewrite Hrel, Hun. naive_solver.
  - intros c Hc. rewrite Hrel, Hun, Hc. split; intros [[? ?] _]; done.
Qed.

Lemma list_class_partition_witness :
  ∃ related unused,
    App.list_class Demo.li_session Sample.db0
    = mkReply [] (Render (related, unused)) Demo.li_session Sample.db0 ∧
    (∀ c, c ∈ unused ↔
          is_Some (db_class Sample.db0 !! c) ∧
          ("T002", c) ∉ db_teacher_class Sample.db0).
Proof.
  destruct (list_class_partition Demo.li_session Sample.db0 "T002"
              (mkUser ClsTeacher "T002" "李老师" "男" 38 "数学学院"
                      (Sample.hash "123456") "TEA" (Some 2015)))
    as (related & unused & Heq & _ & _ & _ & Hun & _).
  - reflexivity.
  - reflexivity.
  - vm_compute. reflexivity.
  - exists related, unused. split; [exact Heq|exact Hun].
Defined.

(** ** The catalog pages *)

Lemma books_in_stock_elem db isbn b :
  (isbn, b) ∈ books_in_stock db ↔ db_book db !! isbn = Some b ∧ 0 < b_remain b.
Proof.
  unfold books_in_stock. rewrite elem_of_map_to_list, map_lookup_filter_Some.
  done.
Qed.

(** X16. The catalog page offers exactly the books that pass the
    stock check of [borrow]: a title is listed, once, if and only if a
    [borrow] of it does not fail with [NoBook]; so a request for a
    listed title can only fail for a reason of the borrower's own
    (an open loan of it, the quota) or the date range.  The category
    page lists the listed books of that category. *)
Theorem listed_books_pass_stock_check db :
  NoDup (books_in_stock db).*1 ∧
  (∀ isbn, isbn ∈ (books_in_stock db).*1 ↔ ¬ no_stock db isbn) ∧
  (∀ isbn self today,
     isbn ∈ (books_in_stock db).*1 ↔
     (borrow self isbn today db).1 ≠ Raise NoBook) ∧
  (∀ cat isbn b,
     (isbn, b) ∈ books_in_stock_in db cat ↔
     (isbn, b) ∈ books_in_stock db ∧ b_category b = cat) ∧
  (∀ cat, cat ∈ categories db ↔ ∃ isbn b, db_book db !! isbn = Some b ∧
                                           b_category b = cat).
Proof.
  assert (∀ isbn, isbn ∈ (books_in_stock db).*1 ↔ ¬ no_stock db isbn) as Hlisted.
  { intros isbn. rewrite list_elem_of_fmap. split.
    - intros ([i b] & -> & [Hb Hrem]%books_in_stock_elem).
      by eapply in_stock_not_no_stock.
    - intros (b & Hb & Hrem)%borrow_in_stock. exists (isbn, b).
      split; [done|]. by apply books_in_stock_elem. }
  split_and!.
  - apply NoDup_fst_map_to_list.
  - done.
  - intros isbn self today. rewrite Hlisted. split.
    + intros Hns Hb. apply Hns.
      unfold borrow in Hb. destruct (db_book db !! isbn) as [b|] eqn:Hbook;
        [|by left]. right. exists b. split; [done|].
      case_bool_decide; [done|]. repeat case_match; simplify_eq.
    + intros Hb Hns. apply Hb. by rewrite borrow_no_stock.
  - intros cat isbn b. rewrite books_in_stock_elem. unfold books_in_stock_in.
    rewrite elem_of_map_to_list, map_lookup_filter_Some. unfold in_stock_in.
    simpl. naive_solver.
  - intros cat. unfold categories.
    rewrite elem_of_remove_dups, list_elem_of_fmap. split.
    + intros ([i b] & -> & Hin%elem_of_map_to_list). eauto.
    + intros (isbn & b & Hb & <-). exists (isbn, b). split; [done|].
      by apply elem_of_map_to_list.
Qed.

(** ** Sorted query results *)

Global Instance by_due_date_total : Total by_due_date.
Proof. intros x y. unfold by_due_date. lia. Qed.
Global Instance by_due_date_trans : Transitive by_due_date.
Proof. intros x y z. unfold by_due_date. lia. Qed.
Global Instance by_uid_total : Total by_uid.
Proof. intros x y. unfold by_uid. apply total, _. Qed.
Global Instance by_uid_trans : Transitive by_uid.
Proof. intros x y z. unfold by_uid. apply transitivity. Qed.
Global Instance by_first_total : Total by_first.
Proof. intros x y. unfold by_first. apply total, _. Qed.
Global Instance by_first_trans : Transitive by_first.
Proof. intros x y z. unfold by_first. apply transitivity. Qed.

Lemma length_omap_all {A B} (f : A → option B) (l : list A) :
  (∀ x, x ∈ l → is_Some (f x)) → length (omap f l) = length l.
Proof.
  induction l as [|x l IH]; simpl; [done|]. intros Hall.
  destruct (Hall x) as [y Hy]; [by left|]. rewrite Hy. simpl. f_equal.
  apply IH. intros z Hz. apply Hall. by right.
Qed.

Lemma NoDup_omap_inj {A B} (f : A → option B) (l : list A) :
  (∀ x y z, f x = Some z → f y = Some z → x = y) →
  NoDup l → NoDup (omap f l).
Proof.
  intros Hinj. induction 1 as [|x l Hx Hl IH]; simpl; [constructor|].
  destruct (f x) as [z|] eqn:Hfx; [|done]. constructor; [|done].
  intros (y & Hy & Hfy)%list_elem_of_omap.
  by rewrite (Hinj x y z Hfx Hfy) in Hx.
Qed.

Lemma open_loans_by_due_elem db u b :
  b ∈ open_loans_by_due db u ↔
  db_borrow db !! bb_id b = Some (bb_loan b) ∧
  br_uid (bb_loan b) = u ∧ br_returned (bb_loan b) = 0 ∧
  ∃ bo, db_book db !! br_isbn (bb_loan b) = Some bo ∧
        bb_name b = b_name bo ∧ bb_authors b = b_authors bo ∧
        bb_publisher b = b_publisher bo ∧ bb_keywords b = b_keywords bo.
Proof.
  unfold open_loans_by_due. rewrite merge_sort_Permutation, list_elem_of_omap.
  split.
  - intros ([id r] & Hin & Hjoin). apply elem_of_map_to_list in Hin.
    apply map_lookup_filter_Some in Hin as [Hr [Hu Ho]]. simpl in *.
    unfold join_book in Hjoin. simpl in Hjoin.
    destruct (db_book db !! br_isbn r) as [bo|] eqn:Hbo; [|done].
    injection Hjoin as <-. simpl. split_and!; try done. by exists bo.
  - intros (Hr & Hu & Ho & bo & Hbo & Hn & Ha & Hp & Hk).
    exists (bb_id b, bb_loan b). split.
    + apply elem_of_map_to_list, map_lookup_filter_Some. by split.
    + unfold join_book. simpl. rewrite Hbo. destruct b. simpl in *.
      by subst.
Qed.

(** X17. [current_borrow] gives the borrower's open loans, each with
    the name, authors, publisher and keywords of its book, in order of
    due date, and nothing else.  In a reachable state no loan drops
    out of the join, so the page has as many lines as the quota check
    counts, and for a logged-in person never more than the quota. *)
Theorem current_borrow_spec d0 db self :
  initial d0 → reachable d0 db →
  StronglySorted by_due_date (current_borrow self db) ∧
  NoDup (current_borrow self db) ∧
  (∀ b, b ∈ current_borrow self db ↔
     db_borrow db !! bb_id b = Some (bb_loan b) ∧
     br_uid (bb_loan b) = uid self ∧ br_returned (bb_loan b) = 0 ∧
     ∃ bo, db_book db !! br_isbn (bb_loan b) = Some bo ∧
           bb_name b = b_name bo ∧ bb_authors b = b_authors bo ∧
           bb_publisher b = b_publisher bo ∧ bb_keywords b = b_keywords bo) ∧
  Z.of_nat (length (current_borrow self db)) = count_open_loans db (uid self) ∧
  (∀ s, current_user db s = Some self →
        Z.of_nat (length (current_borrow self db)) ≤ quota self).
Proof.
  intros Hinit Hreach. pose proof (Inv_reachable _ _ Hinit Hreach) as HI.
  assert (Z.of_nat (length (current_borrow self db))
          = count_open_loans db (uid self)) as Hlen.
  { unfold current_borrow, open_loans_by_due, count_open_loans.
    rewrite merge_sort_Permutation, length_omap_all, length_map_to_list; [done|].
    intros [id r] Hin. apply elem_of_map_to_list in Hin.
    apply map_lookup_filter_Some in Hin as [Hr _].
    destruct (inv_ref _ _ HI _ _ Hr) as [bo Hbo].
    unfold join_book. simpl. rewrite Hbo. by eexists. }
  split_and!.
  - apply StronglySorted_merge_sort; apply _.
  - unfold current_borrow, open_loans_by_due. rewrite merge_sort_Permutation.
    apply NoDup_omap_inj; [|apply NoDup_map_to_list].
    intros [i r] [j r'] z. unfold join_book. simpl.
    destruct (db_book db !! br_isbn r), (db_book db !! br_isbn r'); try done.
    by intros [= <-] [= -> ->].
  - intros b. apply open_loans_by_due_elem.
  - done.
  - intros s Hcur. rewrite Hlen.
    pose proof (current_user_uid _ _ _ Hcur) as Huid.
    destruct (current_user_role _ _ _ Hcur) as (row & Hrow & Hrole).
    rewrite quota_role, Hrole, Huid. by apply (inv_quota d0 db HI).
Qed.

Lemma current_borrow_spec_witness :
  initial Sample.db0 ∧ reachable Sample.db0 Sample.alice_two_loans ∧
  Z.of_nat (length (current_borrow Sample.alice Sample.alice_two_loans))
  = count_open_loans Sample.alice_two_loans "S001".
Proof.
  split; [apply init_db_initial|]. split; [apply run_calls_reachable|].
  apply (current_borrow_spec Sample.db0 Sample.alice_two_loans Sample.alice).
  - apply init_db_initial.
  - apply run_calls_reachable.
Defined.

(** X18. The roster page of a class lists, in order of id and each
    once, exactly the people whose roster entry is that class and
    whose role is [STU], with their name, sex and age; the loans page
    of a student shows the student's open loans as [current_borrow]
    would, in the same order. *)
Theorem roster_pages_spec db class_id student_uid :
  StronglySorted by_uid (students_of_class db class_id) ∧
  NoDup (students_of_class db class_id) ∧
  (∀ i, i ∈ students_of_class db class_id ↔
     db_student db !! si_uid i = Some class_id ∧
     ∃ u, db_user db !! si_uid i = Some u ∧ u_role u = "STU" ∧
          si_name i = u_name u ∧ si_sex i = u_sex u ∧ si_age i = u_age u) ∧
  (∀ s args,
     rp_resp (App.teacher_class_students class_id s db) = Render args →
     args = (db_class db !! class_id, students_of_class db class_id)) ∧
  (∀ s args,
     rp_resp (App.teacher_student_borrow class_id student_uid s db) = Render args →
     args = (db_class db !! class_id, u_name <$> db_user db !! student_uid,
             student_loan <$> open_loans_by_due db student_uid)) ∧
  (∀ l, l ∈ student_loan <$> open_loans_by_due db student_uid ↔
     ∃ r bo, db_borrow db !! sl_id l = Some r ∧ br_uid r = student_uid ∧
             br_returned r = 0 ∧ db_book db !! br_isbn r = Some bo ∧
             l = mkStudentLoan (sl_id l) (br_borrow_date r) (br_due_date r)
                               (br_isbn r) (b_name bo) (b_authors bo)
                               (b_publisher bo) (b_keywords bo)).
Proof.
  split_and!.
  - apply StronglySorted_merge_sort; apply _.
  - unfold students_of_class. rewrite merge_sort_Permutation.
    apply NoDup_omap_inj; [|apply NoDup_map_to_list].
    intros [u c] [u' c'] z. unfold join_user. simpl.
    case_bool_decide as Hc; [|done]. case_bool_decide as Hc'; [|done]. subst.
    destruct (db_user db !! u) as [row|]; [|done].
    destruct (db_user db !! u') as [row'|]; [|done].
    repeat case_bool_decide; try done. intros [= <-] [= -> _ _ _]. done.
  - intros i. unfold students_of_class.
    rewrite merge_sort_Permutation, list_elem_of_omap. split.
    + intros ([u c] & Hin%elem_of_map_to_list & Hjoin).
      unfold join_user in Hjoin. simpl in Hjoin.
      case_bool_decide as Hc; [|done]. subst c.
      destruct (db_user db !! u) as [row|] eqn:Hrow; [|done].
      case_bool_decide as Hrole; [|done]. injection Hjoin as <-. simpl.
      split; [done|]. by exists row.
    + intros (Hst & u & Hu & Hrole & Hn & Hs & Ha).
      exists (si_uid i, class_id). split; [by apply elem_of_map_to_list|].
      unfold join_user. simpl. rewrite bool_decide_eq_true_2 by done.
      rewrite Hu, bool_decide_eq_true_2 by done. destruct i. simpl in *.
      by subst.
  - intros s args. unfold App.teacher_class_students.
    repeat case_match; simpl; try done. by intros [= <-].
  - intros s args. unfold App.teacher_student_borrow.
    repeat case_match; simpl; try done. by intros [= <-].
  - intros l. rewrite list_elem_of_fmap. split.
    + intros (b & -> & (Hr & Hu & Ho & bo & Hbo & Hn & Ha & Hp & Hk)%open_loans_by_due_elem).
      exists (bb_loan b), bo. unfold student_loan. simpl.
      split_and!; try done. by rewrite Hn, Ha, Hp, Hk.
    + intros (r & bo & Hr & Hu & Ho & Hbo & ->). simpl in *.
      exists (mkBorrowedBook (sl_id l) r (b_name bo) (b_authors bo)
                             (b_publisher bo) (b_keywords bo)).
      split; [done|]. apply open_loans_by_due_elem. simpl.
      split_and!; try done. by exists bo.
Qed.

(** ** The profile form *)



(** ** What the messages say *)



(** ** The teacher's class list *)

(** X21. The first page of the class-loans menu lists, in order of
    class id and each once, the classes of the class table that the
    teacher is associated with, with their names: the same classes as
    the related list of [/class]. *)
Theorem related_classes_spec db t :
  StronglySorted by_first (related_classes db t) ∧
  NoDup (related_classes db t) ∧
  (∀ c n, (c, n) ∈ related_classes db t ↔
          db_class db !! c = Some n ∧ (t, c) ∈ db_teacher_class db) ∧
  (∀ c, c ∈ (related_classes db t).*1 ↔ c ∈ related_class_ids db t) ∧
  (∀ s args, rp_resp (App.teacher_class_borrow s db) = Render args →
             s_role s = Some "TEA" ∧
             ∃ u, s_uid s = Some u ∧ args = related_classes db u).
Proof.
  assert (∀ c n, (c, n) ∈ related_classes db t ↔
                 db_class db !! c = Some n ∧ (t, c) ∈ db_teacher_class db) as Hin.
  { intros c n. unfold related_classes.
    rewrite merge_sort_Permutation, list_elem_of_filter, elem_of_map_to_list.
    simpl. naive_solver. }
  split_and!.
  - apply StronglySorted_merge_sort; apply _.
  - unfold related_classes. rewrite merge_sort_Permutation.
    apply NoDup_filter, NoDup_map_to_list.
  - done.
  - intros c. unfold related_class_ids.
    rewrite list_elem_of_fmap, list_elem_of_filter, all_class_ids_elem. split.
    + intros ([c' n] & -> & [Hc Ht]%Hin). simpl. split; [done|by eexists].
    + intros [Ht [n Hn]]. exists (c, n). split; [done|]. by apply Hin.
  - intros s args. unfold App.teacher_class_borrow.
    case_bool_decide as Hrole; [done|].
    destruct (session_user db s) as [[user|] s'] eqn:Hs; [|done].
    apply session_user_Some in Hs as (-> & su & Hsu & Hcur). simpl.
    intros [= <-]. rewrite (current_user_uid _ _ _ Hcur).
    split; [|by exists su].
    destruct (decide (s_role s = Some "TEA")); [done|by destruct Hrole].
Qed.

(** ** Logging in and out *)

(** X22. A successful login stores the person's id and a role that is
    [TEA] or [STU] in the session and changes nothing else; a failed
    login shows one message and leaves the session as it was, so it
    does not log out whoever was logged in.  After [/logout] the
    session is empty, and then every request other than a login
    leaves both the session and the database alone. *)
Theorem login_logout check strip int u pwd s db :
  (∀ user, login check u pwd db = inr user →
     App.login check u pwd s db
     = mkReply [] (Redirect "/index")
               (mkSession (Some u) (Some (role user))) db ∧
     (role user = "TEA" ∨ role user = "STU")) ∧
  (∀ e, login check u pwd db = inl e →
     App.login check u pwd s db = mkReply ["账号或密码错误"] (Render ()) s db) ∧
  App.logout s db = mkReply [] (Redirect "/") session_clear db ∧
  (∀ r, (∀ a b, r ≠ ReqLogin a b) →
        handle check strip int r session_clear db = (session_clear, db)).
Proof.
  split_and!.
  - intros user Hl. unfold App.login. rewrite Hl.
    unfold login in Hl. destruct (db_user db !! u) as [row|]; [|done].
    destruct (negb (check (u_password row) pwd)); [done|].
    case_bool_decide; injection Hl as <-; simpl; auto.
  - intros e Hl. unfold App.login. by rewrite Hl.
  - done.
  - intros r Hr. destruct r; try done. by destruct (Hr form_uid form_pwd).
Qed.
